(** * lab_5_scraper/scraper.py: configuration, crawler, article parser, driver

    A shallow embedding of the scraper module.  Python values are dynamically
    typed, so the raw configuration and everything read from an HTML tree
    are values of [pyval]; a Python [str] is a sequence of Unicode code
    points.  Methods that mutate their object or the outside world are state
    transformers that also report whether they returned or raised: the state
    reached when an exception is raised is kept, as in Python. *)

From Stdlib Require Import String Ascii.
From Stdlib Require Import List ZArith NArith Bool Lia.
Import ListNotations.

Set Warnings "-register-all".

(** ** Python strings *)

Definition char := N.
Definition str := list char.

(** An ASCII literal of the source as a sequence of code points. *)
Definition lit (s : string) : str :=
  map N_of_ascii (list_ascii_of_string s).
Arguments lit s%_string.

(** The separator of [title.text.split(...)]: U+2014 EM DASH. *)
Definition em_dash : char := 8212%N.

Fixpoint str_eqb (a b : str) : bool :=
  match a, b with
  | [], [] => true
  | x :: a', y :: b' => N.eqb x y && str_eqb a' b'
  | _, _ => false
  end.

(** [s.startswith(p)] *)
Fixpoint startswith (p s : str) : bool :=
  match p, s with
  | [], _ => true
  | x :: p', y :: s' => N.eqb x y && startswith p' s'
  | _ :: _, [] => false
  end.

(** [sub in s] for strings *)
Fixpoint str_contains (sub s : str) : bool :=
  startswith sub s ||
  match s with
  | [] => false
  | _ :: s' => str_contains sub s'
  end.

(** [sep.join(parts)] *)
Fixpoint join (sep : str) (parts : list str) : str :=
  match parts with
  | [] => []
  | [p] => p
  | p :: rest => p ++ sep ++ join sep rest
  end.

(** [str.split(sep)] for a non-empty [sep]: the text is scanned left to
    right, every occurrence of [sep] that does not overlap the previous one
    ends a segment.  [skip] counts the characters of a matched separator
    that are still to be passed over; [cur] is the current segment,
    reversed. *)
Fixpoint split_go (sep : str) (skip : nat) (cur : str) (s : str) : list str :=
  match s with
  | [] => [rev cur]
  | c :: s' =>
      match skip with
      | S k => split_go sep k cur s'
      | O =>
          if startswith sep s
          then rev cur :: split_go sep (length sep - 1) [] s'
          else split_go sep 0 (c :: cur) s'
      end
  end.

Definition split (sep s : str) : list str := split_go sep 0 [] s.

(** [str.isspace()] on one character: the white space of the Unicode
    database, which [str.strip()] without argument removes. *)
Definition isspace (c : char) : bool :=
  ((9 <=? c) && (c <=? 13) || (28 <=? c) && (c <=? 32)
   || (c =? 133) || (c =? 160) || (c =? 5760)
   || (8192 <=? c) && (c <=? 8202)
   || (c =? 8232) || (c =? 8233) || (c =? 8239) || (c =? 8287)
   || (c =? 12288))%N.

Fixpoint lstrip (s : str) : str :=
  match s with
  | [] => []
  | c :: s' => if isspace c then lstrip s' else s
  end.

Definition rstrip (s : str) : str := rev (lstrip (rev s)).

(** [s.strip()] *)
Definition strip (s : str) : str := rstrip (lstrip s).

(** ** Exceptions and outcomes *)

Inductive exn :=
| IncorrectEncodingError
| IncorrectHeadersError
| IncorrectNumberOfArticlesError
| IncorrectSeedURLError
| IncorrectTimeoutError
| IncorrectVerifyError
| NumberOfArticlesOutOfRangeError
| AttributeError
| TypeError
| KeyError
| IndexError
| FileExistsError
| FileNotFoundError
| NotADirectoryError
| OSError
| ExternalError (code : N).

Inductive result (A : Type) :=
| Ok (a : A)
| Raise (e : exn).
Arguments Ok {A} a.
Arguments Raise {A} e.

(** A computation over a state [S]: the state it leaves and its outcome. *)
Definition M (S A : Type) := S -> S * result A.

Definition ret {S A} (a : A) : M S A := fun s => (s, Ok a).
Definition raise {S A} (e : exn) : M S A := fun s => (s, Raise e).
Definition bind {S A B} (m : M S A) (k : A -> M S B) : M S B :=
  fun s => match m s with
           | (s', Ok a) => k a s'
           | (s', Raise e) => (s', Raise e)
           end.
Definition get {S} : M S S := fun s => (s, Ok s).
Definition lift_result {S A} (r : result A) : M S A := fun s => (s, r).

Declare Scope py_scope.
Delimit Scope py_scope with py.
Notation "x <- m ;; k" := (bind m (fun x => k))
  (at level 61, m at next level, right associativity) : py_scope.
Notation "m ;;; k" := (bind m (fun _ => k))
  (at level 61, right associativity) : py_scope.

(** ** Python values *)

(** The value of an HTML attribute in a BeautifulSoup tree: a string, or,
    for a multi-valued attribute such as [class], the list of its values. *)
Inductive attr_value :=
| AttrStr (s : str)
| AttrList (l : list str).

(** A node of a BeautifulSoup tree.  The [BeautifulSoup] object itself is a
    [Tag] (named [[document]]). *)
Inductive node :=
| NavigableString (s : str)
| Comment (s : str)
| Tag (name : str) (attrs : list (str * attr_value)) (contents : list node).

(** A Python [float]. *)
Inductive float_val :=
| FNan
| FInf (negative : bool)
| FFin (mantissa exponent : Z).

Inductive pyval :=
| PyNone
| PyBool (b : bool)
| PyInt (z : Z)
| PyFloat (f : float_val)
| PyStr (s : str)
| PyList (l : list pyval)
| PyDict (d : list (str * pyval))
| PyNode (n : node).

(** [isinstance(v, list)], [isinstance(v, str)], [isinstance(v, dict)],
    [isinstance(v, bool)] *)
Definition isinstance_list (v : pyval) : bool :=
  match v with PyList _ => true | _ => false end.
Definition isinstance_str (v : pyval) : bool :=
  match v with
  | PyStr _ | PyNode (NavigableString _) | PyNode (Comment _) => true
  | _ => false
  end.
Definition isinstance_dict (v : pyval) : bool :=
  match v with PyDict _ => true | _ => false end.
Definition isinstance_bool (v : pyval) : bool :=
  match v with PyBool _ => true | _ => false end.

(** The integer behind a value for which [isinstance(v, int)] holds;
    [bool] is a subclass of [int]. *)
Definition as_int (v : pyval) : option Z :=
  match v with
  | PyInt z => Some z
  | PyBool b => Some (if b then 1 else 0)%Z
  | _ => None
  end.

(** The characters of a value for which [isinstance(v, str)] holds. *)
Definition as_str (v : pyval) : option str :=
  match v with
  | PyStr s | PyNode (NavigableString s) | PyNode (Comment s) => Some s
  | _ => None
  end.

Fixpoint assoc {A} (k : str) (d : list (str * A)) : option A :=
  match d with
  | [] => None
  | (k', v) :: d' => if str_eqb k k' then Some v else assoc k d'
  end.

Definition py_of_attr (a : attr_value) : pyval :=
  match a with
  | AttrStr s => PyStr s
  | AttrList l => PyList (map PyStr l)
  end.

(** [v[key]] for a string key *)
Definition py_getitem (v : pyval) (key : str) : result pyval :=
  match v with
  | PyDict d =>
      match assoc key d with Some x => Ok x | None => Raise KeyError end
  | PyNode (Tag _ attrs _) =>
      match assoc key attrs with
      | Some a => Ok (py_of_attr a)
      | None => Raise KeyError
      end
  | _ => Raise TypeError
  end.

(** [iter(v)], run to its end *)
Definition py_iter (v : pyval) : result (list pyval) :=
  match v with
  | PyList l => Ok l
  | PyStr s | PyNode (NavigableString s) | PyNode (Comment s) =>
      Ok (map (fun c => PyStr [c]) s)
  | PyDict d => Ok (map (fun kv => PyStr (fst kv)) d)
  | PyNode (Tag _ _ contents) => Ok (map PyNode contents)
  | PyNone | PyBool _ | PyInt _ | PyFloat _ => Raise TypeError
  end.

(** [l += v] on a list [l]: [list.__iadd__] extends [l] by the items of
    the iterable [v]. *)
Definition list_iadd (l : list pyval) (v : pyval) : result (list pyval) :=
  match py_iter v with
  | Ok items => Ok (l ++ items)
  | Raise e => Raise e
  end.

(** [n >= v] for the integer [n] *)
Definition int_ge (n : Z) (v : pyval) : result bool :=
  match v with
  | PyInt z => Ok (n >=? z)%Z
  | PyBool b => Ok (n >=? (if b then 1 else 0))%Z
  | PyFloat FNan => Ok false
  | PyFloat (FInf negative) => Ok negative
  | PyFloat (FFin m e) =>
      Ok (if (0 <=? e)%Z then (n >=? m * 2 ^ e)%Z
          else (n * 2 ^ (- e) >=? m)%Z)
  | _ => Raise TypeError
  end.

(** ** BeautifulSoup trees *)

(** [tag.descendants]: every node below [n], in document order. *)
Fixpoint descendants (n : node) : list node :=
  match n with
  | Tag _ _ contents =>
      (fix below (l : list node) : list node :=
         match l with
         | [] => []
         | c :: l' => c :: descendants c ++ below l'
         end) contents
  | _ => []
  end.

(** [tag.text]: the strings below a tag joined without separator,
    comments left out.  The module asks only tags for their text; a string
    node is taken as its own text. *)
Definition node_text (n : node) : str :=
  match n with
  | NavigableString s => s
  | Comment s => s
  | Tag _ _ _ =>
      flat_map (fun d => match d with NavigableString s => s | _ => [] end)
               (descendants n)
  end.

Definition href := option attr_value.

(** [tag.get(key)]: the attribute, or [None]. *)
Definition Tag_get (n : node) (key : str) : href :=
  match n with
  | Tag _ attrs _ => assoc key attrs
  | _ => None
  end.

Definition py_of_href (h : href) : pyval :=
  match h with
  | None => PyNone
  | Some a => py_of_attr a
  end.

Fixpoint strs_eqb (a b : list str) : bool :=
  match a, b with
  | [], [] => true
  | x :: a', y :: b' => str_eqb x y && strs_eqb a' b'
  | _, _ => false
  end.

(** [==] on what [tag.get] returns *)
Definition href_eqb (a b : href) : bool :=
  match a, b with
  | None, None => true
  | Some (AttrStr s), Some (AttrStr t) => str_eqb s t
  | Some (AttrList l), Some (AttrList m) => strs_eqb l m
  | _, _ => false
  end.

(** [url in urls] *)
Definition href_in (url : href) (urls : list href) : bool :=
  existsb (href_eqb url) urls.

Definition is_tag (name : str) (n : node) : bool :=
  match n with
  | Tag name' _ _ => str_eqb name name'
  | _ => false
  end.

(** The [class_=c] filter: a value of the multi-valued [class] attribute
    is [c], or the whole attribute is, its values joined by a space. *)
Definition has_class (c : str) (n : node) : bool :=
  match Tag_get n (lit "class") with
  | Some (AttrList l) => existsb (str_eqb c) l || str_eqb c (join (lit " ") l)
  | Some (AttrStr s) => str_eqb c s
  | None => false
  end.

(** [tag.find_all(name)] *)
Definition find_all (name : str) (n : node) : list node :=
  filter (is_tag name) (descendants n).

(** [tag.find(name)]: the first match, or [None]. *)
Definition find (name : str) (n : node) : option node :=
  hd_error (find_all name n).

(** [tag.find(name, class_=c)] *)
Definition find_class (name c : str) (n : node) : option node :=
  hd_error (filter (fun d => is_tag name d && has_class c d) (descendants n)).

(** Sequencing of outcomes without state. *)
Definition and_then {A B} (r : result A) (k : A -> result B) : result B :=
  match r with
  | Ok a => k a
  | Raise e => Raise e
  end.
Notation "x <~ r ;; k" := (and_then r (fun x => k))
  (at level 61, r at next level, right associativity) : py_scope.

Open Scope py_scope.

(** [for x in l: body(x)] *)
Fixpoint for_each {S A} (l : list A) (body : A -> M S unit) : M S unit :=
  match l with
  | [] => ret tt
  | x :: l' => body x ;;; for_each l' body
  end.

(** ** The outside world *)

(** A path as the components below the root of the modelled file tree. *)
Definition path := list str.

(** What a name of the file tree stands for: a regular file (or anything
    else that is neither a directory nor a link), a directory with its
    entries, or a symbolic link.  A link holds what it leads to, or
    nothing when it dangles; a link to a place that has a name of its own
    inside the tree is outside this model. *)
Inductive fsnode :=
| File (data : str)
| Dir (entries : list (str * fsnode))
| Link (target : option fsnode).

Module Response.
Record t := mk { text : str }.
End Response.

(** Modelled from the spec: the [Article] class of [core_utils.article],
    which is not part of the module.  A record is created for a URL and a
    sequential identifier and starts with an empty body text; the parser
    fills in title, author and text. *)
Module Article.
Record t := mk {
  url : href;
  article_id : Z;
  title : str;
  author : pyval;
  text : str
}.

Definition __init__ (url : href) (article_id : Z) : t :=
  mk url article_id [] (PyList []) [].

Definition set_title (v : str) (a : t) : t :=
  mk (url a) (article_id a) v (author a) (text a).
Definition set_author (v : pyval) (a : t) : t :=
  mk (url a) (article_id a) (title a) v (text a).
Definition set_text (v : str) (a : t) : t :=
  mk (url a) (article_id a) (title a) (author a) v.
End Article.

(** Modelled from the spec: the [ConfigDTO] class of [core_utils.config_dto],
    which is not part of the module: the seven values of the configuration
    input, as deserialized. *)
Module ConfigDTO.
Record t := mk {
  seed_urls : pyval;
  total_articles : pyval;
  headers : pyval;
  encoding : pyval;
  timeout : pyval;
  should_verify_certificate : pyval;
  headless_mode : pyval
}.
End ConfigDTO.

(** What the module observes of the world, in order. *)
Inductive event :=
| Print (s : str)
| Request (url : pyval)
| ToRaw (a : Article.t)
| ToMeta (a : Article.t).

Record World := mkWorld {
  trace : list event;
  fs : fsnode
}.

(** What the module takes from its libraries and from [core_utils]:
    the JSON document behind a path ([open] and [json.load]), the answer of
    [requests.get] to a URL with headers, timeout and certificate check,
    the HTML parser, whether a store operation of [core_utils.article.io]
    raises, and the two path constants of [core_utils.constants]. *)
Record Env := mkEnv {
  json_load : path -> result pyval;
  requests_get : pyval -> pyval -> pyval -> pyval -> result Response.t;
  BeautifulSoup : str -> node;
  to_raw_raises : Article.t -> option exn;
  to_meta_raises : Article.t -> option exn;
  ASSETS_PATH : path;
  CRAWLER_CONFIG_PATH : path
}.

Definition log (e : event) : M World unit :=
  fun w => (mkWorld (trace w ++ [e]) (fs w), Ok tt).

(** Running a computation on the world, or on the object, from a method
    whose state is its object and the world. *)
Definition on_world {O A} (m : M World A) : M (O * World) A :=
  fun s => match m (snd s) with (w', r) => ((fst s, w'), r) end.
Definition on_self {O A} (m : M O A) : M (O * World) A :=
  fun s => match m (fst s) with (o', r) => ((o', snd s), r) end.

(** Calling a method on the object [o]: the object as the call leaves it
    comes back with the value returned. *)
Definition call {O A} (o : O) (m : M (O * World) A) : M World (O * A) :=
  fun w => match m (o, w) with
           | ((o', w'), Ok a) => (w', Ok (o', a))
           | ((_, w'), Raise e) => (w', Raise e)
           end.

(** ** Config *)

Module Config.
Record t := mk {
  path_to_config : path;
  _seed_urls : pyval;
  _num_articles : pyval;
  _headers : pyval;
  _encoding : pyval;
  _timeout : pyval;
  _should_verify_certificate : pyval;
  _headless_mode : pyval
}.

Definition _extract_config_content (E : Env) (path_to_config : path)
  : result ConfigDTO.t :=
  data <~ json_load E path_to_config ;;
  seed_urls <~ py_getitem data (lit "seed_urls") ;;
  total <~ py_getitem data (lit "total_articles_to_find_and_parse") ;;
  headers <~ py_getitem data (lit "headers") ;;
  encoding <~ py_getitem data (lit "encoding") ;;
  timeout <~ py_getitem data (lit "timeout") ;;
  verify <~ py_getitem data (lit "should_verify_certificate") ;;
  headless <~ py_getitem data (lit "headless_mode") ;;
  Ok (ConfigDTO.mk seed_urls total headers encoding timeout verify headless).

(** The loop over the seed URLs. *)
Fixpoint check_seed_urls (urls : list pyval) : result unit :=
  match urls with
  | [] => Ok tt
  | url :: rest =>
      match as_str url with
      | None => Raise IncorrectSeedURLError
      | Some s =>
          if negb (str_contains (lit "http://vzm-vesti.ru/") s)
          then Raise IncorrectSeedURLError
          else check_seed_urls rest
      end
  end.

Definition _validate_config_content (self : t) : result unit :=
  match _seed_urls self with
  | PyList urls =>
      _ <~ check_seed_urls urls ;;
      match as_int (_num_articles self) with
      | None => Raise IncorrectNumberOfArticlesError
      | Some n =>
          if (n <=? 0)%Z then Raise IncorrectNumberOfArticlesError else
          if (n <? 0)%Z || (n >? 150)%Z
          then Raise NumberOfArticlesOutOfRangeError else
          if negb (isinstance_dict (_headers self))
          then Raise IncorrectHeadersError else
          if negb (isinstance_str (_encoding self))
          then Raise IncorrectEncodingError else
          match as_int (_timeout self) with
          | None => Raise IncorrectTimeoutError
          | Some tm =>
              if (tm <=? 0)%Z || (tm >? 60)%Z
              then Raise IncorrectTimeoutError else
              if negb (isinstance_bool (_should_verify_certificate self))
                 || negb (isinstance_bool (_headless_mode self))
              then Raise IncorrectVerifyError
              else Ok tt
          end
      end
  | _ => Raise IncorrectSeedURLError
  end.

Definition __init__ (E : Env) (path_to_config : path) : result t :=
  config <~ _extract_config_content E path_to_config ;;
  let self :=
    mk path_to_config
       (ConfigDTO.seed_urls config)
       (ConfigDTO.total_articles config)
       (ConfigDTO.headers config)
       (ConfigDTO.encoding config)
       (ConfigDTO.timeout config)
       (ConfigDTO.should_verify_certificate config)
       (ConfigDTO.headless_mode config) in
  _ <~ _validate_config_content self ;;
  Ok self.

Definition get_seed_urls (self : t) : pyval := _seed_urls self.
Definition get_num_articles (self : t) : pyval := _num_articles self.
Definition get_headers (self : t) : pyval := _headers self.
Definition get_encoding (self : t) : pyval := _encoding self.
Definition get_timeout (self : t) : pyval := _timeout self.
Definition get_verify_certificate (self : t) : pyval :=
  _should_verify_certificate self.
Definition get_headless_mode (self : t) : pyval := _headless_mode self.
End Config.

(** The delay before the request changes nothing that is modelled; the
    request is recorded whether or not it is answered. *)
Definition make_request (E : Env) (url : pyval) (config : Config.t)
  : M World Response.t :=
  log (Request url) ;;;
  lift_result (requests_get E url
                 (Config.get_headers config)
                 (Config.get_timeout config)
                 (Config.get_verify_certificate config)).

(** ** Crawler *)

Module Crawler.
Record t := mk {
  config : Config.t;
  urls : list href
}.

Definition __init__ (config : Config.t) : t := mk config [].

Definition append_url (url : href) : M t unit :=
  fun self => (mk (config self) (urls self ++ [url]), Ok tt).

(** [find] answers [None] when no heading carries the class, and
    [None] has no [find_all]. *)
Definition _extract_url (article_bs : node) : result (list href) :=
  match find_class (lit "h2") (lit "post-title entry-title") article_bs with
  | None => Raise AttributeError
  | Some h2_articles =>
      Ok (map (fun link => Tag_get link (lit "href"))
              (find_all (lit "a") h2_articles))
  end.

(** The loop over the links of one seed page; [true] when it ended in
    [return None]. *)
Fixpoint for_url (url_list : list href) : M t bool :=
  match url_list with
  | [] => ret false
  | url :: rest =>
      self <- get ;;
      (if negb (href_in url (urls self)) then append_url url else ret tt) ;;;
      self <- get ;;
      full <- lift_result (int_ge (Z.of_nat (length (urls self)))
                                  (Config.get_num_articles (config self))) ;;
      if full then ret true else for_url rest
  end.

(** The loop over the seed URLs. *)
Fixpoint for_seed_url (E : Env) (seed_urls : list pyval)
  : M (t * World) unit :=
  match seed_urls with
  | [] => ret tt
  | seed_url :: rest =>
      self <- on_self get ;;
      response <- on_world (make_request E seed_url (config self)) ;;
      let soup := BeautifulSoup E (Response.text response) in
      url_list <- lift_result (_extract_url soup) ;;
      returned <- (if negb (length url_list =? 0)%nat
                   then on_self (for_url url_list)
                   else ret false) ;;
      if returned then ret tt else for_seed_url E rest
  end.

Definition find_articles (E : Env) : M (t * World) unit :=
  self <- on_self get ;;
  let seed_urls := Config.get_seed_urls (config self) in
  items <- lift_result (py_iter seed_urls) ;;
  for_seed_url E items.

Definition get_search_urls (self : t) : pyval :=
  Config.get_seed_urls (config self).
End Crawler.

(** ** HTMLParser *)

Module HTMLParser.
Record t := mk {
  _full_url : href;
  _article_id : Z;
  config : Config.t;
  article : Article.t
}.

Definition __init__ (full_url : href) (article_id : Z) (config : Config.t)
  : t :=
  mk full_url article_id config (Article.__init__ full_url article_id).

Definition update_article (f : Article.t -> Article.t) : M t unit :=
  fun self =>
    (mk (_full_url self) (_article_id self) (config self) (f (article self)),
     Ok tt).

Definition _fill_article_with_text (article_soup : node) : M t unit :=
  let all_body := find_all (lit "p") article_soup in
  for_each all_body (fun p =>
    self <- get ;;
    update_article
      (Article.set_text (Article.text (article self) ++ node_text p))).

Definition _fill_article_with_meta_information (article_soup : node)
  : M t unit :=
  match find (lit "title") article_soup with
  | None => raise AttributeError
  | Some title =>
      match split [em_dash] (node_text title) with
      | [] => raise IndexError
      | title1 :: _ =>
          update_article (Article.set_title (strip title1)) ;;;
          let empty : list pyval := [] in
          update_article (Article.set_author (PyList empty)) ;;;
          match find_class (lit "p") (lit "bio-name") article_soup with
          | None =>
              let author := PyStr (lit "NOT FOUND") in
              items <- lift_result (list_iadd empty author) ;;
              update_article (Article.set_author (PyList items))
          | Some author =>
              items <- lift_result (list_iadd empty (PyNode author)) ;;
              update_article (Article.set_author (PyList items))
          end
      end
  end.

(** The body of [unify_date_format] is its docstring: the call returns
    [None] whatever the date text. *)
Definition unify_date_format (self : t) (date_str : str) : pyval := PyNone.

Definition parse (E : Env) : M (t * World) Article.t :=
  self <- on_self get ;;
  response <- on_world
    (make_request E (py_of_href (_full_url self)) (config self)) ;;
  let article_bs := BeautifulSoup E (Response.text response) in
  on_self (_fill_article_with_text article_bs) ;;;
  on_self (_fill_article_with_meta_information article_bs) ;;;
  self <- on_self get ;;
  ret (article self).
End HTMLParser.

(** ** The output area *)

Fixpoint remove_key {A} (k : str) (d : list (str * A)) : list (str * A) :=
  match d with
  | [] => []
  | (k', v) :: d' =>
      if str_eqb k k' then remove_key k d' else (k', v) :: remove_key k d'
  end.

Fixpoint set_key {A} (k : str) (v : A) (d : list (str * A))
  : list (str * A) :=
  match d with
  | [] => [(k, v)]
  | (k', v') :: d' =>
      if str_eqb k k' then (k, v) :: d' else (k', v') :: set_key k v d'
  end.

(** What a name leads to once symbolic links are followed, as [stat]
    sees it: nothing for a link that dangles. *)
Fixpoint resolve (n : fsnode) : option fsnode :=
  match n with
  | Link (Some target) => resolve target
  | Link None => None
  | _ => Some n
  end.

(** The node with other entries in the directory that it leads to. *)
Fixpoint rebuild (n : fsnode) (entries : list (str * fsnode)) : fsnode :=
  match n with
  | Dir _ => Dir entries
  | Link (Some target) => Link (Some (rebuild target entries))
  | _ => n
  end.

(** A change of the entries of the directory that [n] leads to; on the
    way to a name below, a regular file gives [NotADirectoryError] and a
    link that dangles the exception of the caller. *)
Definition in_dir (dangling : exn) (n : fsnode)
    (change : list (str * fsnode) -> result (list (str * fsnode)))
  : result fsnode :=
  match resolve n with
  | Some (Dir entries) =>
      entries' <~ change entries ;; Ok (rebuild n entries')
  | Some _ => Raise NotADirectoryError
  | None => Raise dangling
  end.

(** What lies at [p], links followed. *)
Fixpoint fs_lookup (p : path) (n : fsnode) : option fsnode :=
  match p with
  | [] => resolve n
  | c :: p' =>
      match resolve n with
      | Some (Dir entries) =>
          match assoc c entries with
          | Some child => fs_lookup p' child
          | None => None
          end
      | _ => None
      end
  end.

(** [pathlib.Path(p).exists()]: links are followed, so a link that
    dangles does not exist. *)
Definition exists_ (p : path) (n : fsnode) : bool :=
  match fs_lookup p n with Some _ => true | None => false end.

(** [shutil.rmtree(p)]: removes the directory at [p] with all it holds;
    raises when [p] is missing, is not a directory or is a symbolic link.
    The root of the modelled tree cannot be removed. *)
Fixpoint rmtree (p : path) (n : fsnode) : result fsnode :=
  match p with
  | [] => Raise OSError
  | c :: p' =>
      in_dir FileNotFoundError n (fun entries =>
        match assoc c entries with
        | None => Raise FileNotFoundError
        | Some child =>
            match p' with
            | [] =>
                match child with
                | Dir _ => Ok (remove_key c entries)
                | File _ => Raise NotADirectoryError
                | Link _ =>
                    match resolve child with
                    | Some _ => Raise OSError
                    | None => Raise FileNotFoundError
                    end
                end
            | _ :: _ =>
                child' <~ rmtree p' child ;;
                Ok (set_key c child' entries)
            end
        end)
  end.

(** [pathlib.Path(p).mkdir(parents=True)]: creates the directory at [p]
    and the missing directories above it; raises when [p] exists, be it
    as a link that dangles, when something above it is not a directory,
    or is a link that dangles. *)
Fixpoint mkdir_parents (p : path) (n : fsnode) : result fsnode :=
  match p with
  | [] => Raise FileExistsError
  | c :: p' =>
      in_dir FileExistsError n (fun entries =>
        match assoc c entries, p' with
        | Some _, [] => Raise FileExistsError
        | Some child, _ :: _ =>
            child' <~ mkdir_parents p' child ;;
            Ok (set_key c child' entries)
        | None, [] => Ok (entries ++ [(c, Dir [])])
        | None, _ :: _ =>
            child' <~ mkdir_parents p' (Dir []) ;;
            Ok (entries ++ [(c, child')])
        end)
  end.

(** A change of the file tree that may raise; the tree is left as it was
    when it does. *)
Definition change_fs (f : fsnode -> result fsnode) : M World unit :=
  fun w => match f (fs w) with
           | Ok n => (mkWorld (trace w) n, Ok tt)
           | Raise e => (w, Raise e)
           end.

Definition prepare_environment (base_path : path) : M World unit :=
  w <- get ;;
  (if exists_ base_path (fs w) then change_fs (rmtree base_path) else ret tt) ;;;
  change_fs (mkdir_parents base_path).

(** ** The driver *)

(** Modelled from the spec: [to_raw] and [to_meta] of
    [core_utils.article.io], which are not part of the module: the two
    store operations of the sink, each of which succeeds or raises. *)
Definition to_raw (E : Env) (a : Article.t) : M World unit :=
  log (ToRaw a) ;;;
  match to_raw_raises E a with Some e => raise e | None => ret tt end.
Definition to_meta (E : Env) (a : Article.t) : M World unit :=
  log (ToMeta a) ;;;
  match to_meta_raises E a with Some e => raise e | None => ret tt end.

(** The loop of [main] over [crawler.urls]. *)
Fixpoint for_crawler_url (E : Env) (configuration : Config.t)
    (urls : list href) (article_id : Z) : M World unit :=
  match urls with
  | [] => ret tt
  | url :: rest =>
      let parser := HTMLParser.__init__ url article_id configuration in
      parsed <- call parser (HTMLParser.parse E) ;;
      let parser := fst parsed in
      let article_id := (article_id + 1)%Z in
      to_raw E (HTMLParser.article parser) ;;;
      to_meta E (HTMLParser.article parser) ;;;
      for_crawler_url E configuration rest article_id
  end.

Definition main (E : Env) : M World unit :=
  log (Print (lit "start")) ;;;
  configuration <- lift_result (Config.__init__ E (CRAWLER_CONFIG_PATH E)) ;;
  let crawler := Crawler.__init__ configuration in
  found <- call crawler (Crawler.find_articles E) ;;
  let crawler := fst found in
  prepare_environment (ASSETS_PATH E) ;;;
  let article_id := 1%Z in
  for_crawler_url E configuration (Crawler.urls crawler) article_id.

(** ** The rules of the configuration fields

    The rule of each field as the validator states it, one predicate per
    field, to say which fields of a raw configuration are in order. *)

Definition site : str := lit "http://vzm-vesti.ru/".

Definition seed_url_rule (url : pyval) : bool :=
  match as_str url with
  | Some s => str_contains site s
  | None => false
  end.

Definition seed_urls_rule (v : pyval) : bool :=
  match v with
  | PyList urls => forallb seed_url_rule urls
  | _ => false
  end.

Definition count_rule (v : pyval) : bool :=
  match as_int v with
  | Some n => (0 <? n)%Z && (n <=? 150)%Z
  | None => false
  end.

Definition timeout_rule (v : pyval) : bool :=
  match as_int v with
  | Some n => (0 <? n)%Z && (n <=? 60)%Z
  | None => false
  end.

(** The field that breaks its rule; the count has two rules, of two
    error kinds. *)
Inductive violation :=
| SeedUrls
| CountNotPositive
| CountTooLarge
| Headers
| Encoding
| Timeout
| VerifyFlag
| HeadlessFlag.

Definition error_kind (v : violation) : exn :=
  match v with
  | SeedUrls => IncorrectSeedURLError
  | CountNotPositive => IncorrectNumberOfArticlesError
  | CountTooLarge => NumberOfArticlesOutOfRangeError
  | Headers => IncorrectHeadersError
  | Encoding => IncorrectEncodingError
  | Timeout => IncorrectTimeoutError
  | VerifyFlag | HeadlessFlag => IncorrectVerifyError
  end.

(** [holds_unless broken rule]: the rule fails on the field that is
    broken and holds on every other field. *)
Definition holds_unless (broken : bool) (rule : bool) : Prop :=
  rule = negb broken.

Definition is_seed_urls (v : violation) : bool :=
  match v with SeedUrls => true | _ => false end.
Definition is_headers (v : violation) : bool :=
  match v with Headers => true | _ => false end.
Definition is_encoding (v : violation) : bool :=
  match v with Encoding => true | _ => false end.
Definition is_timeout (v : violation) : bool :=
  match v with Timeout => true | _ => false end.
Definition is_verify (v : violation) : bool :=
  match v with VerifyFlag => true | _ => false end.
Definition is_headless (v : violation) : bool :=
  match v with HeadlessFlag => true | _ => false end.

(** [only v c]: in the raw configuration [c] the field of [v] breaks its
    rule and every other field keeps its rule. *)
Definition only (v : violation) (c : ConfigDTO.t) : Prop :=
  holds_unless (is_seed_urls v) (seed_urls_rule (ConfigDTO.seed_urls c))
  /\ match v with
     | CountNotPositive =>
         match as_int (ConfigDTO.total_articles c) with
         | Some n => (n <= 0)%Z
         | None => True
         end
     | CountTooLarge =>
         exists n, as_int (ConfigDTO.total_articles c) = Some n
                   /\ (150 < n)%Z
     | _ => count_rule (ConfigDTO.total_articles c) = true
     end
  /\ holds_unless (is_headers v) (isinstance_dict (ConfigDTO.headers c))
  /\ holds_unless (is_encoding v) (isinstance_str (ConfigDTO.encoding c))
  /\ holds_unless (is_timeout v) (timeout_rule (ConfigDTO.timeout c))
  /\ holds_unless (is_verify v)
       (isinstance_bool (ConfigDTO.should_verify_certificate c))
  /\ holds_unless (is_headless v)
       (isinstance_bool (ConfigDTO.headless_mode c)).

(** The items that [l += v] appends to a list. *)
Definition iterated (v : pyval) : list pyval :=
  match py_iter v with
  | Ok items => items
  | Raise _ => []
  end.

(** A parser with another record. *)
Definition with_article (self : HTMLParser.t) (a : Article.t)
  : HTMLParser.t :=
  HTMLParser.mk (HTMLParser._full_url self) (HTMLParser._article_id self)
    (HTMLParser.config self) a.

(** The author that the parser finds: the items of the sentinel string
    when no paragraph carries the class, the items of the paragraph when
    one does. *)
Definition author_items (soup : node) : list pyval :=
  match find_class (lit "p") (lit "bio-name") soup with
  | None => iterated (PyStr (lit "NOT FOUND"))
  | Some author => iterated (PyNode author)
  end.

(** What [parse] makes of a parser and what it returns or raises; the
    request that it records in the world is left aside. *)
Definition parse_outcome (E : Env) (self : HTMLParser.t)
  : HTMLParser.t * result Article.t :=
  match HTMLParser.parse E (self, mkWorld [] (Dir [])) with
  | ((self', _), r) => (self', r)
  end.

(** The record that the driver holds for a URL and an identifier once
    [parse] is over. *)
Definition record_for (E : Env) (configuration : Config.t) (url : href)
    (article_id : Z) : Article.t :=
  HTMLParser.article
    (fst (parse_outcome E (HTMLParser.__init__ url article_id configuration))).

(** The URLs of a frontier, each with its position, counted from
    [first]. *)
Definition numbered_from (first : Z) (urls : list href) : list (Z * href) :=
  combine (map (fun k => (first + Z.of_nat k)%Z) (seq 0 (length urls))) urls.

(** What a complete turn of the driver's loop records for a URL and its
    identifier: the request, then the raw text, then the metadata of the
    record. *)
Definition turn (E : Env) (configuration : Config.t) (iu : Z * href)
  : list event :=
  let a := record_for E configuration (snd iu) (fst iu) in
  [Request (py_of_href (snd iu)); ToRaw a; ToMeta a].

Definition full_run (E : Env) (configuration : Config.t) (first : Z)
    (urls : list href) : list event :=
  flat_map (turn E configuration) (numbered_from first urls).

(** Every component of [p] that exists is a directory: the last one a
    directory itself, the ones above it possibly reached through symbolic
    links.  So no regular file lies on the path, no link that dangles,
    and the last component is no link. *)
Fixpoint clear_along (p : path) (n : fsnode) : bool :=
  match p with
  | [] => match n with Dir _ => true | _ => false end
  | c :: p' =>
      match resolve n with
      | Some (Dir entries) =>
          match assoc c entries with
          | None => true
          | Some child => clear_along p' child
          end
      | _ => false
      end
  end.

(** The preparation of the output area as the specification words it, for
    every path: two calls in succession leave the file tree of one call,
    with an empty directory at the path. *)
Definition prepares_for_every_path : Prop :=
  forall (base_path : path) (w : World),
    let once := prepare_environment base_path w in
    let twice := prepare_environment base_path (fst once) in
    fs (fst twice) = fs (fst once)
    /\ fs_lookup base_path (fs (fst twice)) = Some (Dir []).

(** ** Descriptions used by the further properties *)

(** All rules of the configuration fields at once. *)
Definition config_rules (self : Config.t) : bool :=
  seed_urls_rule (Config._seed_urls self)
  && count_rule (Config._num_articles self)
  && isinstance_dict (Config._headers self)
  && isinstance_str (Config._encoding self)
  && timeout_rule (Config._timeout self)
  && isinstance_bool (Config._should_verify_certificate self)
  && isinstance_bool (Config._headless_mode self).

(** The keys that the configuration file must hold. *)
Definition config_keys : list str :=
  [lit "seed_urls"; lit "total_articles_to_find_and_parse"; lit "headers";
   lit "encoding"; lit "timeout"; lit "should_verify_certificate";
   lit "headless_mode"].

(** [breaks v c]: the field of [v] breaks its rule in [c]. *)
Definition breaks (v : violation) (c : ConfigDTO.t) : Prop :=
  match v with
  | SeedUrls => seed_urls_rule (ConfigDTO.seed_urls c) = false
  | CountNotPositive =>
      match as_int (ConfigDTO.total_articles c) with
      | Some n => (n <= 0)%Z
      | None => True
      end
  | CountTooLarge =>
      exists n, as_int (ConfigDTO.total_articles c) = Some n /\ (150 < n)%Z
  | Headers => isinstance_dict (ConfigDTO.headers c) = false
  | Encoding => isinstance_str (ConfigDTO.encoding c) = false
  | Timeout => timeout_rule (ConfigDTO.timeout c) = false
  | VerifyFlag =>
      isinstance_bool (ConfigDTO.should_verify_certificate c) = false
  | HeadlessFlag => isinstance_bool (ConfigDTO.headless_mode c) = false
  end.

(** The place of a field in the order of the checks; the two flags are
    checked together. *)
Definition rank (v : violation) : nat :=
  match v with
  | SeedUrls => 0
  | CountNotPositive => 1
  | CountTooLarge => 2
  | Headers => 3
  | Encoding => 4
  | Timeout => 5
  | VerifyFlag | HeadlessFlag => 6
  end.

(** [earlier_hold v c]: the fields checked before the field of [v] keep
    their rules in [c]; nothing is asked of the fields checked after. *)
Definition earlier_hold (v : violation) (c : ConfigDTO.t) : Prop :=
  (0 < rank v -> seed_urls_rule (ConfigDTO.seed_urls c) = true)
  /\ (2 < rank v -> count_rule (ConfigDTO.total_articles c) = true)
  /\ (3 < rank v -> isinstance_dict (ConfigDTO.headers c) = true)
  /\ (4 < rank v -> isinstance_str (ConfigDTO.encoding c) = true)
  /\ (5 < rank v -> timeout_rule (ConfigDTO.timeout c) = true).

(** The links of [links] that [seen] does not hold, each at its first
    occurrence only. *)
Fixpoint new_links (seen : list href) (links : list href) : list href :=
  match links with
  | [] => []
  | url :: rest =>
      if href_in url seen then new_links seen rest
      else url :: new_links (seen ++ [url]) rest
  end.

(** The links that the crawler reads from the page behind a seed URL. *)
Definition page_links (E : Env) (config : Config.t) (seed_url : pyval)
  : result (list href) :=
  match requests_get E seed_url (Config.get_headers config)
          (Config.get_timeout config)
          (Config.get_verify_certificate config) with
  | Ok response =>
      Crawler._extract_url (BeautifulSoup E (Response.text response))
  | Raise e => Raise e
  end.

(** A node that [find("h2", class_="post-title entry-title")] accepts. *)
Definition is_listing (n : node) : bool :=
  is_tag (lit "h2") n && has_class (lit "post-title entry-title") n.

(** A complete turn of the driver's loop for a URL and its identifier:
    [parse] returns and neither store operation raises. *)
Definition turn_returns (E : Env) (configuration : Config.t)
    (iu : Z * href) : bool :=
  match snd (parse_outcome E
               (HTMLParser.__init__ (snd iu) (fst iu) configuration)) with
  | Ok _ =>
      match to_raw_raises E (record_for E configuration (snd iu) (fst iu)),
            to_meta_raises E (record_for E configuration (snd iu) (fst iu))
      with
      | None, None => true
      | _, _ => false
      end
  | Raise _ => false
  end.

(** The paths part ways: at some place their components differ. *)
Fixpoint diverge (p q : path) : bool :=
  match p, q with
  | c :: p', d :: q' => if str_eqb c d then diverge p' q' else true
  | _, _ => false
  end.

(** An event of the sink. *)
Definition is_store (e : event) : bool :=
  match e with
  | ToRaw _ | ToMeta _ => true
  | _ => false
  end.

(** The object that [Config.__init__] fills from the raw values, before
    it validates them. *)
Definition config_of (p : path) (c : ConfigDTO.t) : Config.t :=
  Config.mk p
    (ConfigDTO.seed_urls c) (ConfigDTO.total_articles c)
    (ConfigDTO.headers c) (ConfigDTO.encoding c) (ConfigDTO.timeout c)
    (ConfigDTO.should_verify_certificate c) (ConfigDTO.headless_mode c).

(** ** Sample inputs

    A listing page, an article page, a raw configuration and a world to
    run the module on. *)

Module Sample.
Definition link_a : href := Some (AttrStr (lit "http://vzm-vesti.ru/?p=1")).
Definition link_b : href := Some (AttrStr (lit "http://vzm-vesti.ru/?p=2")).
Definition link_c : href := Some (AttrStr (lit "http://vzm-vesti.ru/?p=3")).

Definition anchor (h : href) : node :=
  Tag (lit "a")
      match h with Some v => [(lit "href", v)] | None => [] end
      [NavigableString (lit "more")].

(** A page whose heading of class [post-title entry-title] holds the
    given links. *)
Definition listing (links : list href) : node :=
  Tag (lit "[document]") []
    [Tag (lit "h2")
         [(lit "class", AttrList [lit "post-title"; lit "entry-title"])]
         (map anchor links)].

(** A page without such a heading. *)
Definition no_listing : node :=
  Tag (lit "[document]") []
    [Tag (lit "h1") [] [NavigableString (lit "Maintenance")]].

Definition paragraph (s : str) : node :=
  Tag (lit "p") [] [NavigableString s].

(** An article with a title, two paragraphs and no author element. *)
Definition article_page : node :=
  Tag (lit "[document]") []
    [Tag (lit "title") []
         [NavigableString
            (lit "Headline Text " ++ [em_dash] ++ lit " Site Name")];
     Comment (lit "body");
     paragraph (lit "Hello ");
     paragraph (lit "world.")].

(** An article whose author element holds markup. *)
Definition signed_page : node :=
  Tag (lit "[document]") []
    [Tag (lit "title") [] [NavigableString (lit "Report")];
     Tag (lit "p") [(lit "class", AttrList [lit "bio-name"])]
         [Tag (lit "b") [] [NavigableString (lit "Ivan")];
          NavigableString (lit " Petrov")]].

(** An article without paragraphs. *)
Definition bare_page : node :=
  Tag (lit "[document]") []
    [Tag (lit "title") [] [NavigableString (lit "Empty")]].

Definition seed_1 : pyval := PyStr (lit "http://vzm-vesti.ru/").
Definition seed_2 : pyval := PyStr (lit "http://vzm-vesti.ru/page/2/").

Definition raw (seed_urls total timeout verify : pyval) : pyval :=
  PyDict
    [(lit "seed_urls", seed_urls);
     (lit "total_articles_to_find_and_parse", total);
     (lit "headers", PyDict [(lit "user-agent", PyStr (lit "Mozilla/5.0"))]);
     (lit "encoding", PyStr (lit "utf-8"));
     (lit "timeout", timeout);
     (lit "should_verify_certificate", verify);
     (lit "headless_mode", PyBool false)].

Definition config (total : Z) : Config.t :=
  Config.mk [lit "scraper_config.json"]
    (PyList [seed_1; seed_2]) (PyInt total)
    (PyDict [(lit "user-agent", PyStr (lit "Mozilla/5.0"))])
    (PyStr (lit "utf-8")) (PyInt 5) (PyBool true) (PyBool false).

(** A world in which the configuration file holds [data], every seed
    URL answers with [seed_page], every other URL with [article],
    and the sink never raises. *)
Definition env (data : pyval) (seed_page article : node) : Env :=
  mkEnv
    (fun _ => Ok data)
    (fun url _ _ _ =>
       match url with
       | PyStr s =>
           if str_eqb s (lit "http://vzm-vesti.ru/")
              || str_eqb s (lit "http://vzm-vesti.ru/page/2/")
           then Ok (Response.mk (lit "<listing>"))
           else Ok (Response.mk (lit "<article>"))
       | _ => Raise (ExternalError 0)
       end)
    (fun markup =>
       if str_eqb markup (lit "<listing>") then seed_page else article)
    (fun _ => None)
    (fun _ => None)
    [lit "tmp"; lit "articles"]
    [lit "scraper_config.json"].

Definition world : World := mkWorld [] (Dir []).
End Sample.

(** * Properties *)

(** ** Strings and links *)

Lemma str_eqb_eq (a b : str) : str_eqb a b = true <-> a = b.
Proof.
  revert b; induction a as [|x a IH]; intros [|y b]; simpl;
    try (split; intro H; congruence).
  rewrite andb_true_iff, N.eqb_eq, IH.
  split; [intros [-> ->]; reflexivity | intro H; inversion H; auto].
Qed.

Lemma str_eqb_refl (a : str) : str_eqb a a = true.
Proof. apply str_eqb_eq; reflexivity. Qed.

Lemma str_eqb_neq (a b : str) : a <> b -> str_eqb a b = false.
Proof.
  intro H; destruct (str_eqb a b) eqn:Heq; [|reflexivity].
  apply str_eqb_eq in Heq; contradiction.
Qed.

Lemma strs_eqb_eq (a b : list str) : strs_eqb a b = true <-> a = b.
Proof.
  revert b; induction a as [|x a IH]; intros [|y b]; simpl;
    try (split; intro H; congruence).
  rewrite andb_true_iff, str_eqb_eq, IH.
  split; [intros [-> ->]; reflexivity | intro H; inversion H; auto].
Qed.

Lemma href_eqb_eq (a b : href) : href_eqb a b = true <-> a = b.
Proof.
  destruct a as [[s|l]|], b as [[t|m]|]; simpl;
    try (split; intro H; congruence).
  - rewrite str_eqb_eq; split; congruence.
  - rewrite strs_eqb_eq; split; congruence.
Qed.

Lemma href_eqb_refl (a : href) : href_eqb a a = true.
Proof. apply href_eqb_eq; reflexivity. Qed.

Lemma href_eqb_neq (a b : href) : a <> b -> href_eqb a b = false.
Proof.
  intro H; destruct (href_eqb a b) eqn:Heq; [|reflexivity].
  apply href_eqb_eq in Heq; contradiction.
Qed.

Lemma href_in_In (url : href) (urls : list href) :
  href_in url urls = true <-> In url urls.
Proof.
  unfold href_in; rewrite existsb_exists; split.
  - intros (x & Hx & Heq); apply href_eqb_eq in Heq; subst; assumption.
  - intro H; exists url; split; [assumption | apply href_eqb_refl].
Qed.

(** ** Config *)

Lemma check_seed_urls_ok (urls : list pyval) :
  forallb seed_url_rule urls = true -> Config.check_seed_urls urls = Ok tt.
Proof.
  induction urls as [|u urls IH]; simpl; [reflexivity|].
  rewrite andb_true_iff; intros [Hu Hrest].
  unfold seed_url_rule in Hu; destruct (as_str u) as [s|]; [|discriminate].
  fold site; rewrite Hu; simpl; auto.
Qed.

Lemma check_seed_urls_bad (urls : list pyval) (s : str) :
  In (PyStr s) urls -> str_contains site s = false ->
  Config.check_seed_urls urls = Raise IncorrectSeedURLError.
Proof.
  intros Hin Hs; induction urls as [|u urls IH]; simpl; [contradiction|].
  destruct Hin as [->|Hin].
  - simpl; fold site; rewrite Hs; reflexivity.
  - destruct (as_str u) as [t|]; [|reflexivity].
    destruct (negb _); [reflexivity | auto].
Qed.

Lemma count_rule_inv (v : pyval) :
  count_rule v = true ->
  exists n, as_int v = Some n /\ (n <=? 0)%Z = false
            /\ ((n <? 0) || (n >? 150))%Z = false.
Proof.
  unfold count_rule; destruct (as_int v) as [n|]; [|discriminate].
  rewrite andb_true_iff, Z.ltb_lt, Z.leb_le; intros [H1 H2].
  exists n; repeat split; [lia | ].
  apply orb_false_iff; split; lia.
Qed.

Lemma timeout_rule_inv (v : pyval) :
  timeout_rule v = true ->
  exists n, as_int v = Some n /\ ((n <=? 0) || (n >? 60))%Z = false.
Proof.
  unfold timeout_rule; destruct (as_int v) as [n|]; [|discriminate].
  rewrite andb_true_iff, Z.ltb_lt, Z.leb_le; intros [H1 H2].
  exists n; split; [reflexivity | apply orb_false_iff; split; lia].
Qed.

Lemma seed_urls_rule_inv (v : pyval) :
  seed_urls_rule v = true ->
  exists urls, v = PyList urls /\ Config.check_seed_urls urls = Ok tt.
Proof.
  destruct v; simpl; try discriminate.
  intro H; eexists; split; [reflexivity | apply check_seed_urls_ok, H].
Qed.

(** ** Crawler *)

Lemma int_ge_as_int (len : Z) (v : pyval) (n : Z) :
  as_int v = Some n -> int_ge len v = Ok (len >=? n)%Z.
Proof.
  destruct v; simpl; try discriminate; intro H; inversion H; reflexivity.
Qed.

(** One turn of the loop over the links of a page. *)
Lemma for_url_cons (url : href) (rest : list href) (self : Crawler.t) (n : Z) :
  as_int (Config.get_num_articles (Crawler.config self)) = Some n ->
  Crawler.for_url (url :: rest) self =
  let urls' := if href_in url (Crawler.urls self)
               then Crawler.urls self else Crawler.urls self ++ [url] in
  let self' := Crawler.mk (Crawler.config self) urls' in
  if (Z.of_nat (length urls') >=? n)%Z then (self', Ok true)
  else Crawler.for_url rest self'.
Proof.
  intro Hn; destruct self as [cfg urls]; simpl in *.
  unfold bind, get, lift_result, ret, Crawler.append_url; simpl.
  destruct (href_in url urls); simpl;
    rewrite (int_ge_as_int _ _ _ Hn);
    match goal with |- context [(?a >=? ?b)%Z] => destruct (a >=? b)%Z end;
    reflexivity.
Qed.

(** The loop over the links keeps the configuration, and a frontier that
    was below the target does not pass it; it is still below the target
    when the loop ends without [return]. *)
Lemma for_url_bound (links : list href) (self : Crawler.t) (n : Z) :
  as_int (Config.get_num_articles (Crawler.config self)) = Some n ->
  (Z.of_nat (length (Crawler.urls self)) < n)%Z ->
  let out := Crawler.for_url links self in
  Crawler.config (fst out) = Crawler.config self
  /\ (Z.of_nat (length (Crawler.urls (fst out))) <= n)%Z
  /\ (snd out = Ok true \/
      snd out = Ok false
      /\ (Z.of_nat (length (Crawler.urls (fst out))) < n)%Z).
Proof.
  revert self; induction links as [|url rest IH]; intros self Hn Hlt.
  - simpl; repeat split; [lia | right; split; [reflexivity | assumption]].
  - rewrite (for_url_cons _ _ _ _ Hn); cbv zeta.
    set (urls' := if href_in url (Crawler.urls self)
                  then Crawler.urls self else Crawler.urls self ++ [url]).
    assert (Hlen : (Z.of_nat (length urls') <= n)%Z).
    { subst urls'; destruct (href_in url (Crawler.urls self));
        [lia | rewrite length_app; simpl; lia]. }
    destruct (Z.of_nat (length urls') >=? n)%Z eqn:Hge.
    + simpl; repeat split; [assumption | left; reflexivity].
    + apply (IH (Crawler.mk (Crawler.config self) urls')); simpl;
        [assumption | lia].
Qed.

(** The loop over the links only adds to the frontier, and what it adds
    are links of the page that the frontier did not hold, each once. *)
Lemma for_url_extends (links : list href) (self : Crawler.t) (n : Z) :
  as_int (Config.get_num_articles (Crawler.config self)) = Some n ->
  exists added,
    Crawler.urls (fst (Crawler.for_url links self))
    = Crawler.urls self ++ added
    /\ NoDup added
    /\ forall u, In u added -> In u links /\ ~ In u (Crawler.urls self).
Proof.
  revert self; induction links as [|url rest IH]; intros self Hn.
  - exists []; simpl; rewrite app_nil_r.
    repeat split; [constructor | contradiction | contradiction].
  - rewrite (for_url_cons _ _ _ _ Hn); cbv zeta.
    destruct (href_in url (Crawler.urls self)) eqn:Hin.
    + destruct (Z.of_nat (length (Crawler.urls self)) >=? n)%Z.
      * exists []; simpl; rewrite app_nil_r.
        repeat split; [constructor | contradiction | contradiction].
      * destruct (IH (Crawler.mk (Crawler.config self) (Crawler.urls self)) Hn)
          as (added & Heq & Hnd & Hnew).
        exists added; split; [exact Heq|]; split; [exact Hnd|].
        intros u Hu; destruct (Hnew u Hu); split; [right|]; assumption.
    + assert (Hfresh : ~ In url (Crawler.urls self)).
      { intro H; apply href_in_In in H; congruence. }
      destruct (Z.of_nat (length (Crawler.urls self ++ [url])) >=? n)%Z.
      * exists [url]; simpl.
        split; [reflexivity|].
        split; [constructor; [intros []|constructor]|].
        intros u [<-|[]]; split; [left; reflexivity | exact Hfresh].
      * destruct (IH (Crawler.mk (Crawler.config self)
                                 (Crawler.urls self ++ [url])) Hn)
          as (added & Heq & Hnd & Hnew).
        exists (url :: added); simpl in *.
        split; [rewrite Heq, <- app_assoc; reflexivity|].
        split.
        { constructor; [|exact Hnd].
          intro Hu; destruct (Hnew url Hu) as [_ Hno].
          apply Hno, in_or_app; right; left; reflexivity. }
        intros u [<-|Hu]; [split; [left; reflexivity | exact Hfresh]|].
        destruct (Hnew u Hu) as [Hrest Hno].
        split; [right; exact Hrest|].
        intro H; apply Hno, in_or_app; left; exact H.
Qed.

(** A frontier without repetition stays so. *)
Lemma for_url_nodup (links : list href) (self : Crawler.t) (n : Z) :
  as_int (Config.get_num_articles (Crawler.config self)) = Some n ->
  NoDup (Crawler.urls self) ->
  NoDup (Crawler.urls (fst (Crawler.for_url links self))).
Proof.
  intros Hn Hnd.
  destruct (for_url_extends links self n Hn) as (added & -> & Hadd & Hnew).
  induction (Crawler.urls self) as [|x xs IHxs]; [exact Hadd|].
  simpl; inversion Hnd as [|? ? Hx Hxs]; subst.
  constructor.
  - intro H; apply in_app_or in H; destruct H as [H|H]; [contradiction|].
    destruct (Hnew x H) as [_ Hno]; apply Hno; left; reflexivity.
  - apply IHxs; [exact Hxs|].
    intros u Hu; destruct (Hnew u Hu) as [Hl Hno].
    split; [exact Hl | intro H; apply Hno; right; exact H].
Qed.

(** One turn of the loop over the seed URLs. *)
Lemma for_seed_url_cons (E : Env) (seed : pyval) (rest : list pyval)
    (self : Crawler.t) (w : World) :
  Crawler.for_seed_url E (seed :: rest) (self, w) =
  let w1 := mkWorld (trace w ++ [Request seed]) (fs w) in
  match requests_get E seed
          (Config.get_headers (Crawler.config self))
          (Config.get_timeout (Crawler.config self))
          (Config.get_verify_certificate (Crawler.config self)) with
  | Raise e => ((self, w1), Raise e)
  | Ok response =>
      match Crawler._extract_url
              (BeautifulSoup E (Response.text response)) with
      | Raise e => ((self, w1), Raise e)
      | Ok url_list =>
          match Crawler.for_url url_list self with
          | (self', Ok true) => ((self', w1), Ok tt)
          | (self', Ok false) => Crawler.for_seed_url E rest (self', w1)
          | (self', Raise e) => ((self', w1), Raise e)
          end
      end
  end.
Proof.
  simpl.
  unfold bind, on_self, on_world, get, make_request, log, lift_result, bind;
    simpl.
  destruct (requests_get E seed _ _ _) as [response|e]; [|reflexivity].
  destruct (Crawler._extract_url _) as [url_list|e]; [|reflexivity].
  destruct url_list as [|url url_list]; [reflexivity|].
  cbn [length Nat.eqb negb fst snd].
  destruct (Crawler.for_url (url :: url_list) self) as [self' [[|]|e]];
    reflexivity.
Qed.

Lemma for_seed_url_bound (E : Env) (seeds : list pyval) (self : Crawler.t)
    (w : World) (n : Z) :
  as_int (Config.get_num_articles (Crawler.config self)) = Some n ->
  (Z.of_nat (length (Crawler.urls self)) < n)%Z ->
  (Z.of_nat (length (Crawler.urls
     (fst (fst (Crawler.for_seed_url E seeds (self, w)))))) <= n)%Z.
Proof.
  revert self w; induction seeds as [|seed rest IH]; intros self w Hn Hlt.
  - simpl; lia.
  - rewrite for_seed_url_cons; cbv zeta.
    destruct (requests_get E seed _ _ _) as [response|e]; [|simpl; lia].
    destruct (Crawler._extract_url _) as [url_list|e]; [|simpl; lia].
    destruct (for_url_bound url_list self n Hn Hlt) as (Hcfg & Hle & Hout).
    destruct (Crawler.for_url url_list self) as [self' out]; simpl in *.
    destruct Hout as [->|[-> Hlt']]; [simpl; assumption|].
    apply IH; [rewrite Hcfg; assumption | assumption].
Qed.

Lemma for_seed_url_nodup (E : Env) (seeds : list pyval) (self : Crawler.t)
    (w : World) (n : Z) :
  as_int (Config.get_num_articles (Crawler.config self)) = Some n ->
  (Z.of_nat (length (Crawler.urls self)) < n)%Z ->
  NoDup (Crawler.urls self) ->
  NoDup (Crawler.urls (fst (fst (Crawler.for_seed_url E seeds (self, w))))).
Proof.
  revert self w; induction seeds as [|seed rest IH]; intros self w Hn Hlt Hnd.
  - exact Hnd.
  - rewrite for_seed_url_cons; cbv zeta.
    destruct (requests_get E seed _ _ _) as [response|e]; [|exact Hnd].
    destruct (Crawler._extract_url _) as [url_list|e]; [|exact Hnd].
    pose proof (for_url_nodup url_list self n Hn Hnd) as Hnd'.
    destruct (for_url_bound url_list self n Hn Hlt) as (Hcfg & Hle & Hout).
    destruct (Crawler.for_url url_list self) as [self' out]; simpl in *.
    destruct Hout as [->|[-> Hlt']]; [exact Hnd'|].
    apply (IH self' _); [rewrite Hcfg; exact Hn | exact Hlt' | exact Hnd'].
Qed.

Lemma find_articles_unfold (E : Env) (cfg : Config.t) (urls : list href)
    (w : World) (seeds : list pyval) :
  Config.get_seed_urls cfg = PyList seeds ->
  Crawler.find_articles E (Crawler.mk cfg urls, w)
  = Crawler.for_seed_url E seeds (Crawler.mk cfg urls, w).
Proof.
  intro H; unfold Crawler.find_articles, bind, on_self, get, lift_result.
  simpl; rewrite H; reflexivity.
Qed.

Lemma validated_config (cfg : Config.t) :
  Config._validate_config_content cfg = Ok tt ->
  (exists seeds, Config.get_seed_urls cfg = PyList seeds)
  /\ exists n, as_int (Config.get_num_articles cfg) = Some n
               /\ (0 < n <= 150)%Z.
Proof.
  unfold Config._validate_config_content, Config.get_seed_urls,
    Config.get_num_articles.
  destruct (Config._seed_urls cfg); try discriminate.
  destruct (Config.check_seed_urls l); simpl; [|discriminate].
  destruct (as_int (Config._num_articles cfg)) as [n|]; [|discriminate].
  destruct (n <=? 0)%Z eqn:H0; [discriminate|].
  destruct ((n <? 0)%Z || (n >? 150)%Z) eqn:H1; [discriminate|].
  intros _; split; [eexists; reflexivity|].
  exists n; split; [reflexivity|].
  apply orb_false_iff in H1; lia.
Qed.

Lemma for_url_nil (self : Crawler.t) :
  Crawler.for_url [] self = (self, Ok false).
Proof. reflexivity. Qed.

Arguments Crawler.for_url : simpl never.
Arguments Crawler.for_seed_url : simpl never.

(** For a validated configuration no link is twice in the frontier that
    a crawl leaves. *)
Lemma find_articles_nodup (E : Env) (cfg : Config.t) (w : World) :
  Config._validate_config_content cfg = Ok tt ->
  NoDup (Crawler.urls
           (fst (fst (Crawler.find_articles E (Crawler.__init__ cfg, w))))).
Proof.
  intro Hvalid.
  destruct (validated_config _ Hvalid) as ((seeds & Hseeds) & n & Hn & Hr).
  unfold Crawler.__init__.
  rewrite (find_articles_unfold E cfg [] w _ Hseeds).
  apply (for_seed_url_nodup E seeds _ w n); simpl;
    [exact Hn | lia | constructor].
Qed.

(** C3: when the first seed page yields the links [A, B, A, C], pairwise
    different, and the target count is 3, the crawl leaves the frontier
    [A, B, C] in this order: the second [A] is in the frontier already, is
    not appended and does not count; the crawl returns at [C], having
    requested that seed page only. *)
Theorem C3_frontier_deduplication (E : Env) (cfg : Config.t) (w : World)
    (seed : pyval) (rest : list pyval) (response : Response.t)
    (A B C : href) :
  Config.get_seed_urls cfg = PyList (seed :: rest) ->
  Config.get_num_articles cfg = PyInt 3 ->
  requests_get E seed (Config.get_headers cfg) (Config.get_timeout cfg)
    (Config.get_verify_certificate cfg) = Ok response ->
  Crawler._extract_url (BeautifulSoup E (Response.text response))
  = Ok [A; B; A; C] ->
  A <> B -> A <> C -> B <> C ->
  Crawler.find_articles E (Crawler.__init__ cfg, w)
  = ((Crawler.mk cfg [A; B; C],
      mkWorld (trace w ++ [Request seed]) (fs w)), Ok tt).
Proof.
  intros Hseeds Hnum Hget Hlinks HAB HAC HBC.
  assert (Hn : forall urls,
             as_int (Config.get_num_articles
                       (Crawler.config (Crawler.mk cfg urls))) = Some 3%Z)
    by (intro; simpl; rewrite Hnum; reflexivity).
  unfold Crawler.__init__.
  rewrite (find_articles_unfold E cfg [] w _ Hseeds), for_seed_url_cons.
  cbn [Crawler.config Crawler.urls].
  rewrite Hget, Hlinks; cbv zeta.
  rewrite (for_url_cons _ _ _ _ (Hn _)); cbn.
  rewrite (for_url_cons _ _ _ _ (Hn _)); cbn.
  rewrite (href_eqb_neq _ _ (not_eq_sym HAB)); cbn.
  rewrite (for_url_cons _ _ _ _ (Hn _)); cbn.
  rewrite href_eqb_refl; cbn.
  rewrite (for_url_cons _ _ _ _ (Hn _)); cbn.
  rewrite (href_eqb_neq _ _ (not_eq_sym HAC)), (href_eqb_neq _ _ (not_eq_sym HBC)).
  reflexivity.
Qed.

Lemma C3_frontier_deduplication_witness :
  let E := Sample.env PyNone
             (Sample.listing [Sample.link_a; Sample.link_b;
                              Sample.link_a; Sample.link_c])
             Sample.article_page in
  Crawler.find_articles E (Crawler.__init__ (Sample.config 3), Sample.world)
  = ((Crawler.mk (Sample.config 3)
        [Sample.link_a; Sample.link_b; Sample.link_c],
      mkWorld [Request Sample.seed_1] (Dir [])), Ok tt).
Proof.
  intro E.
  apply (C3_frontier_deduplication E (Sample.config 3) Sample.world
           Sample.seed_1 [Sample.seed_2] (Response.mk (lit "<listing>"))
           Sample.link_a Sample.link_b Sample.link_c);
    try reflexivity; discriminate.
Defined.

(** C4: for a validated configuration the frontier that a crawl leaves
    never has more links than the target count; and with target count 2,
    when the first seed page yields [A], [B] and further links, with [A]
    and [B] different, the frontier is [A, B], none of the further links
    is looked at and no further seed URL is requested. *)
Theorem C4_frontier_capping (E : Env) (cfg : Config.t) (w : World) (n : Z) :
  Config._validate_config_content cfg = Ok tt ->
  as_int (Config.get_num_articles cfg) = Some n ->
  let out := Crawler.find_articles E (Crawler.__init__ cfg, w) in
  (Z.of_nat (length (Crawler.urls (fst (fst out)))) <= n)%Z
  /\ (n = 2%Z ->
      forall seed rest response A B links,
        Config.get_seed_urls cfg = PyList (seed :: rest) ->
        requests_get E seed (Config.get_headers cfg) (Config.get_timeout cfg)
          (Config.get_verify_certificate cfg) = Ok response ->
        Crawler._extract_url (BeautifulSoup E (Response.text response))
        = Ok (A :: B :: links) ->
        A <> B ->
        out = ((Crawler.mk cfg [A; B],
                mkWorld (trace w ++ [Request seed]) (fs w)), Ok tt)).
Proof.
  intros Hvalid Hnum out; subst out.
  destruct (validated_config _ Hvalid) as ((seeds & Hseeds) & n' & Hn' & Hr).
  rewrite Hnum in Hn'; inversion Hn'; subst n'; clear Hn'.
  unfold Crawler.__init__.
  rewrite (find_articles_unfold E cfg [] w _ Hseeds).
  split.
  - apply for_seed_url_bound; simpl; [assumption | lia].
  - intros -> seed rest response A B links Hseeds' Hget Hlinks HAB.
    rewrite Hseeds' in Hseeds; inversion Hseeds; subst seeds; clear Hseeds.
    assert (Hn : forall urls,
               as_int (Config.get_num_articles
                         (Crawler.config (Crawler.mk cfg urls))) = Some 2%Z)
      by (intro; simpl; assumption).
    rewrite for_seed_url_cons.
    cbn [Crawler.config Crawler.urls].
    rewrite Hget, Hlinks; cbv zeta.
    rewrite (for_url_cons _ _ _ _ (Hn _)); cbn.
    rewrite (for_url_cons _ _ _ _ (Hn _)); cbn.
    rewrite (href_eqb_neq _ _ (not_eq_sym HAB)); reflexivity.
Qed.

Lemma C4_frontier_capping_witness :
  let E := Sample.env PyNone
             (Sample.listing [Sample.link_a; Sample.link_b; Sample.link_c])
             Sample.article_page in
  let out :=
    Crawler.find_articles E (Crawler.__init__ (Sample.config 2), Sample.world)
  in
  (Z.of_nat (length (Crawler.urls (fst (fst out)))) <= 2)%Z
  /\ out = ((Crawler.mk (Sample.config 2) [Sample.link_a; Sample.link_b],
             mkWorld [Request Sample.seed_1] (Dir [])), Ok tt).
Proof.
  intros E out.
  destruct (C4_frontier_capping E (Sample.config 2) Sample.world 2%Z
              eq_refl eq_refl) as [Hle Hcap].
  split; [exact Hle|].
  apply (Hcap eq_refl Sample.seed_1 [Sample.seed_2]
           (Response.mk (lit "<listing>"))
           Sample.link_a Sample.link_b [Sample.link_c]);
    try reflexivity; discriminate.
Defined.

(** C7: when the loop over the seed URLs comes to a page without a
    heading of class [post-title entry-title], extracting its links
    raises, and so does the crawl, whatever the frontier holds and
    whatever seed URLs remain: the page is not skipped. *)
Theorem C7_missing_listing_raises (E : Env) (self : Crawler.t) (w : World)
    (seed : pyval) (rest : list pyval) (response : Response.t) :
  requests_get E seed
    (Config.get_headers (Crawler.config self))
    (Config.get_timeout (Crawler.config self))
    (Config.get_verify_certificate (Crawler.config self)) = Ok response ->
  find_class (lit "h2") (lit "post-title entry-title")
    (BeautifulSoup E (Response.text response)) = None ->
  Crawler._extract_url (BeautifulSoup E (Response.text response))
  = Raise AttributeError
  /\ Crawler.for_seed_url E (seed :: rest) (self, w)
     = ((self, mkWorld (trace w ++ [Request seed]) (fs w)),
        Raise AttributeError).
Proof.
  intros Hget Hfind.
  assert (Hx : Crawler._extract_url (BeautifulSoup E (Response.text response))
               = Raise AttributeError)
    by (unfold Crawler._extract_url; rewrite Hfind; reflexivity).
  split; [exact Hx|].
  rewrite for_seed_url_cons; cbv zeta; rewrite Hget, Hx; reflexivity.
Qed.

Lemma C7_missing_listing_raises_witness :
  let E := Sample.env PyNone Sample.no_listing Sample.article_page in
  Crawler._extract_url Sample.no_listing = Raise AttributeError
  /\ Crawler.for_seed_url E [Sample.seed_1; Sample.seed_2]
       (Crawler.__init__ (Sample.config 3), Sample.world)
     = ((Crawler.__init__ (Sample.config 3),
         mkWorld [Request Sample.seed_1] (Dir [])), Raise AttributeError).
Proof.
  intro E.
  apply (C7_missing_listing_raises E (Crawler.__init__ (Sample.config 3))
           Sample.world Sample.seed_1 [Sample.seed_2]
           (Response.mk (lit "<listing>")));
    reflexivity.
Defined.

(** The crawl as a whole raises when its first seed page has no listing
    container. *)
Corollary find_articles_first_page_malformed (E : Env) (cfg : Config.t)
    (w : World) (seed : pyval) (rest : list pyval) (response : Response.t) :
  Config.get_seed_urls cfg = PyList (seed :: rest) ->
  requests_get E seed (Config.get_headers cfg) (Config.get_timeout cfg)
    (Config.get_verify_certificate cfg) = Ok response ->
  find_class (lit "h2") (lit "post-title entry-title")
    (BeautifulSoup E (Response.text response)) = None ->
  snd (Crawler.find_articles E (Crawler.__init__ cfg, w))
  = Raise AttributeError.
Proof.
  intros Hseeds Hget Hfind.
  unfold Crawler.__init__.
  rewrite (find_articles_unfold E cfg [] w _ Hseeds), for_seed_url_cons; cbv zeta.
  cbn [Crawler.config].
  rewrite Hget; unfold Crawler._extract_url; rewrite Hfind; reflexivity.
Qed.

(** ** Configuration validation *)

Lemma Config_init_unfold (E : Env) (p : path) (c : ConfigDTO.t) :
  Config._extract_config_content E p = Ok c ->
  Config.__init__ E p =
  match Config._validate_config_content (config_of p c) with
  | Ok _ => Ok (config_of p c)
  | Raise e => Raise e
  end.
Proof.
  intro H; unfold Config.__init__; rewrite H; simpl.
  fold (config_of p c).
  destruct (Config._validate_config_content (config_of p c)); reflexivity.
Qed.

(** A raw configuration all of whose fields keep their rules is accepted
    as it is. *)
Lemma Config_init_accepts (E : Env) (p : path) (c : ConfigDTO.t) :
  Config._extract_config_content E p = Ok c ->
  seed_urls_rule (ConfigDTO.seed_urls c) = true ->
  count_rule (ConfigDTO.total_articles c) = true ->
  isinstance_dict (ConfigDTO.headers c) = true ->
  isinstance_str (ConfigDTO.encoding c) = true ->
  timeout_rule (ConfigDTO.timeout c) = true ->
  isinstance_bool (ConfigDTO.should_verify_certificate c) = true ->
  isinstance_bool (ConfigDTO.headless_mode c) = true ->
  Config.__init__ E p = Ok (config_of p c).
Proof.
  intros Hx Hs Hc Hh He Ht Hv Hm.
  rewrite (Config_init_unfold E p c Hx).
  unfold Config._validate_config_content; simpl.
  destruct (seed_urls_rule_inv _ Hs) as (urls & -> & ->); simpl.
  destruct (count_rule_inv _ Hc) as (n & -> & -> & ->).
  rewrite Hh, He; simpl.
  destruct (timeout_rule_inv _ Ht) as (tm & -> & ->).
  rewrite Hv, Hm; reflexivity.
Qed.

Lemma check_seed_urls_fails (urls : list pyval) :
  forallb seed_url_rule urls = false ->
  Config.check_seed_urls urls = Raise IncorrectSeedURLError.
Proof.
  induction urls as [|u urls IH]; simpl; [discriminate|].
  unfold seed_url_rule at 1; fold site.
  destruct (as_str u) as [s|]; [|reflexivity].
  destruct (str_contains site s); simpl; [exact IH | reflexivity].
Qed.

Lemma timeout_rule_fails (v : pyval) :
  timeout_rule v = false ->
  match as_int v with
  | Some n => ((n <=? 0) || (n >? 60))%Z = true
  | None => True
  end.
Proof.
  unfold timeout_rule; destruct (as_int v) as [n|]; [|trivial].
  intro H; apply andb_false_iff in H; apply orb_true_iff.
  destruct H as [H|H]; [left | right]; lia.
Qed.

(** C2: when exactly one field of the raw configuration breaks its rule,
    constructing the configuration raises the error of that field:
    [IncorrectSeedURLError] for the seed URLs (a seed URL without the
    site's address), [IncorrectNumberOfArticlesError] for a count that is
    no integer or not positive (0), [NumberOfArticlesOutOfRangeError] for
    a count above 150 (200), [IncorrectTimeoutError] for a timeout outside
    1..60 (0, 61), [IncorrectVerifyError] for a flag that is no boolean,
    and likewise for headers and encoding.  The outcome is the exception
    alone: no configuration comes back. *)
Theorem C2_validation_error_kinds (E : Env) (p : path) (c : ConfigDTO.t)
    (v : violation) :
  Config._extract_config_content E p = Ok c ->
  only v c ->
  Config.__init__ E p = Raise (error_kind v).
Proof.
  intros Hx (Hs & Hc & Hh & He & Ht & Hv & Hm).
  rewrite (Config_init_unfold E p c Hx).
  unfold Config._validate_config_content, holds_unless in *; simpl.
  destruct v; simpl in *;
    try (destruct (seed_urls_rule_inv _ Hs) as (urls & -> & ->); simpl).
  - destruct (ConfigDTO.seed_urls c); try reflexivity.
    simpl in Hs; rewrite (check_seed_urls_fails _ Hs); reflexivity.
  - destruct (as_int (ConfigDTO.total_articles c)) as [n|]; [|reflexivity].
    apply Z.leb_le in Hc; rewrite Hc; reflexivity.
  - destruct Hc as (n & -> & Hn).
    assert (H0 : (n <=? 0)%Z = false) by lia.
    assert (H1 : ((n <? 0) || (n >? 150))%Z = true)
      by (apply orb_true_iff; right; lia).
    rewrite H0, H1; reflexivity.
  - destruct (count_rule_inv _ Hc) as (n & -> & -> & ->).
    rewrite Hh; reflexivity.
  - destruct (count_rule_inv _ Hc) as (n & -> & -> & ->).
    rewrite Hh, He; reflexivity.
  - destruct (count_rule_inv _ Hc) as (n & -> & -> & ->).
    rewrite Hh, He; simpl.
    pose proof (timeout_rule_fails _ Ht) as Hbad.
    destruct (as_int (ConfigDTO.timeout c)) as [tm|]; [|reflexivity].
    rewrite Hbad; reflexivity.
  - destruct (count_rule_inv _ Hc) as (n & -> & -> & ->).
    rewrite Hh, He; simpl.
    destruct (timeout_rule_inv _ Ht) as (tm & -> & ->).
    rewrite Hv; reflexivity.
  - destruct (count_rule_inv _ Hc) as (n & -> & -> & ->).
    rewrite Hh, He; simpl.
    destruct (timeout_rule_inv _ Ht) as (tm & -> & ->).
    rewrite Hv, Hm; reflexivity.
Qed.

Lemma C2_validation_error_kinds_witness :
  let good := PyList [Sample.seed_1] in
  let run seed_urls total timeout verify :=
    Config.__init__
      (Sample.env (Sample.raw seed_urls total timeout verify)
         Sample.no_listing Sample.bare_page)
      [lit "scraper_config.json"] in
  run (PyList [PyStr (lit "http://other-domain.com/")])
      (PyInt 5) (PyInt 5) (PyBool true) = Raise IncorrectSeedURLError
  /\ run good (PyInt 0) (PyInt 5) (PyBool true)
     = Raise IncorrectNumberOfArticlesError
  /\ run good (PyInt 200) (PyInt 5) (PyBool true)
     = Raise NumberOfArticlesOutOfRangeError
  /\ run good (PyInt 5) (PyInt 0) (PyBool true) = Raise IncorrectTimeoutError
  /\ run good (PyInt 5) (PyInt 61) (PyBool true) = Raise IncorrectTimeoutError
  /\ run good (PyInt 5) (PyInt 5) (PyStr (lit "yes"))
     = Raise IncorrectVerifyError.
Proof.
  intros good run.
  pose (dto s n t b :=
          ConfigDTO.mk s n
            (PyDict [(lit "user-agent", PyStr (lit "Mozilla/5.0"))])
            (PyStr (lit "utf-8")) t b (PyBool false)).
  refine (conj _ (conj _ (conj _ (conj _ (conj _ _))))).
  - apply (C2_validation_error_kinds _ _
             (dto (PyList [PyStr (lit "http://other-domain.com/")])
                  (PyInt 5) (PyInt 5) (PyBool true)) SeedUrls);
      [reflexivity | repeat split; reflexivity].
  - apply (C2_validation_error_kinds _ _
             (dto good (PyInt 0) (PyInt 5) (PyBool true)) CountNotPositive);
      [reflexivity | repeat split; simpl; try reflexivity; lia].
  - apply (C2_validation_error_kinds _ _
             (dto good (PyInt 200) (PyInt 5) (PyBool true)) CountTooLarge);
      [reflexivity|].
    split; [reflexivity|].
    split; [exists 200%Z; split; [reflexivity | lia]|].
    repeat split; reflexivity.
  - apply (C2_validation_error_kinds _ _
             (dto good (PyInt 5) (PyInt 0) (PyBool true)) Timeout);
      [reflexivity | repeat split; reflexivity].
  - apply (C2_validation_error_kinds _ _
             (dto good (PyInt 5) (PyInt 61) (PyBool true)) Timeout);
      [reflexivity | repeat split; reflexivity].
  - apply (C2_validation_error_kinds _ _
             (dto good (PyInt 5) (PyInt 5) (PyStr (lit "yes"))) VerifyFlag);
      [reflexivity | repeat split; reflexivity].
Defined.

(** ** HTMLParser *)

Lemma split_go_nonempty (sep : str) (s : str) (skip : nat) (cur : str) :
  split_go sep skip cur s <> [].
Proof.
  revert skip cur; induction s as [|c s IH]; intros skip cur; simpl.
  - discriminate.
  - destruct skip; [|apply IH].
    destruct (startswith sep (c :: s)); [discriminate | apply IH].
Qed.

(** Up to the first separator character, [split] collects the text. *)
Lemma split_go_first (d : char) (a b cur : str) :
  ~ In d a ->
  split_go [d] 0 cur (a ++ d :: b) = (rev cur ++ a) :: split_go [d] 0 [] b.
Proof.
  revert cur; induction a as [|x a IH]; intros cur Hd; simpl.
  - rewrite N.eqb_refl, app_nil_r; reflexivity.
  - assert (Hx : N.eqb d x = false)
      by (apply N.eqb_neq; intro; subst; apply Hd; left; reflexivity).
    rewrite Hx; simpl.
    rewrite IH by (intro; apply Hd; right; assumption).
    simpl; rewrite <- app_assoc; reflexivity.
Qed.

Lemma split_go_none (d : char) (a cur : str) :
  ~ In d a -> split_go [d] 0 cur a = [rev cur ++ a].
Proof.
  revert cur; induction a as [|x a IH]; intros cur Hd; simpl.
  - rewrite app_nil_r; reflexivity.
  - assert (Hx : N.eqb d x = false)
      by (apply N.eqb_neq; intro; subst; apply Hd; left; reflexivity).
    rewrite Hx; simpl.
    rewrite IH by (intro; apply Hd; right; assumption).
    simpl; rewrite <- app_assoc; reflexivity.
Qed.

(** The loop over the paragraphs appends their texts, in order, to the
    text that the record holds. *)
Lemma for_each_paragraph (ps : list node) (self : HTMLParser.t) :
  for_each ps (fun p =>
    self <- get ;;
    HTMLParser.update_article
      (Article.set_text
         (Article.text (HTMLParser.article self) ++ node_text p))) self
  = (with_article self
       (Article.set_text
          (Article.text (HTMLParser.article self)
           ++ concat (map node_text ps))
          (HTMLParser.article self)), Ok tt).
Proof.
  revert self; induction ps as [|p ps IH]; intro self.
  - destruct self as [u i c [au ai at_ aa ax]]; simpl.
    unfold ret, with_article, Article.set_text; simpl.
    rewrite app_nil_r; reflexivity.
  - cbn [for_each].
    unfold bind at 1. unfold bind at 1. unfold get at 1.
    unfold HTMLParser.update_article at 1.
    rewrite IH.
    destruct self as [u i c [au ai at_ aa ax]]; simpl.
    unfold with_article, Article.set_text; simpl.
    rewrite <- app_assoc; reflexivity.
Qed.

Lemma fill_text_spec (soup : node) (self : HTMLParser.t) :
  HTMLParser._fill_article_with_text soup self
  = (with_article self
       (Article.set_text
          (Article.text (HTMLParser.article self)
           ++ concat (map node_text (find_all (lit "p") soup)))
          (HTMLParser.article self)), Ok tt).
Proof. apply for_each_paragraph. Qed.

Lemma py_iter_node (n : node) : py_iter (PyNode n) = Ok (iterated (PyNode n)).
Proof. destruct n; reflexivity. Qed.

(** What [_fill_article_with_meta_information] does when the document
    has a title element: it returns, having set the title and the author
    and nothing else. *)
Lemma fill_meta_spec (soup title : node) (self : HTMLParser.t) :
  find (lit "title") soup = Some title ->
  HTMLParser._fill_article_with_meta_information soup self
  = (with_article self
       (Article.set_author (PyList (author_items soup))
          (Article.set_title
             (strip (hd [] (split [em_dash] (node_text title))))
             (HTMLParser.article self))), Ok tt).
Proof.
  intro Hfind.
  unfold HTMLParser._fill_article_with_meta_information, author_items.
  rewrite Hfind.
  destruct (split [em_dash] (node_text title)) as [|title1 others] eqn:Hsplit.
  - exfalso; exact (split_go_nonempty _ _ _ _ Hsplit).
  - destruct self as [u i c [au ai at_ aa ax]].
    destruct (find_class (lit "p") (lit "bio-name") soup) as [author|].
    + unfold bind, lift_result, list_iadd, HTMLParser.update_article.
      rewrite py_iter_node; reflexivity.
    + reflexivity.
Qed.

Lemma fill_meta_missing_title (soup : node) (self : HTMLParser.t) :
  find (lit "title") soup = None ->
  HTMLParser._fill_article_with_meta_information soup self
  = (self, Raise AttributeError).
Proof.
  intro Hfind; unfold HTMLParser._fill_article_with_meta_information.
  rewrite Hfind; reflexivity.
Qed.

(** C5: when the text of the title element is a segment without em dash,
    an em dash and a rest, the title of the record is that first segment
    with the white space at its ends removed; for the title text
    "Headline Text " followed by an em dash and the site name it is
    "Headline Text". *)
Theorem C5_title_before_em_dash (soup title : node) (self : HTMLParser.t)
    (a b : str) :
  find (lit "title") soup = Some title ->
  node_text title = a ++ em_dash :: b ->
  ~ In em_dash a ->
  let out := HTMLParser._fill_article_with_meta_information soup self in
  snd out = Ok tt
  /\ Article.title (HTMLParser.article (fst out)) = strip a
  /\ (a = lit "Headline Text " ->
      Article.title (HTMLParser.article (fst out)) = lit "Headline Text").
Proof.
  intros Hfind Htext Ha out; subst out.
  rewrite (fill_meta_spec soup title self Hfind), Htext.
  unfold split; rewrite (split_go_first em_dash a b [] Ha); simpl.
  repeat split; intros ->; reflexivity.
Qed.

Lemma C5_title_before_em_dash_witness :
  let self := HTMLParser.__init__ Sample.link_a 1 (Sample.config 3) in
  let out :=
    HTMLParser._fill_article_with_meta_information Sample.article_page self in
  snd out = Ok tt
  /\ Article.title (HTMLParser.article (fst out)) = lit "Headline Text".
Proof.
  intros self out.
  destruct (C5_title_before_em_dash Sample.article_page
              (Tag (lit "title") []
                 [NavigableString
                    (lit "Headline Text " ++ [em_dash] ++ lit " Site Name")])
              self (lit "Headline Text ") (lit " Site Name"))
    as (Hok & _ & Htitle).
  - reflexivity.
  - reflexivity.
  - intros [H|H]; repeat (discriminate H || destruct H as [H|H]); exact H.
  - split; [exact Hok | exact (Htitle eq_refl)].
Defined.

(** Without an em dash the whole title text is kept, stripped. *)
Lemma title_without_em_dash (soup title : node) (self : HTMLParser.t) :
  find (lit "title") soup = Some title ->
  ~ In em_dash (node_text title) ->
  Article.title (HTMLParser.article
    (fst (HTMLParser._fill_article_with_meta_information soup self)))
  = strip (node_text title).
Proof.
  intros Hfind Ha.
  rewrite (fill_meta_spec soup title self Hfind).
  unfold split; rewrite (split_go_none em_dash _ [] Ha); reflexivity.
Qed.

(** C6: on a new parser, filling in the text never raises and leaves as
    body text the texts of the paragraph elements of the document, in
    document order, one after the other with nothing between them:
    "Hello world." for the paragraphs "Hello " and "world.", and the empty
    text for a document without paragraph elements. *)
Theorem C6_body_text_concatenation (soup : node) (url : href)
    (article_id : Z) (cfg : Config.t) :
  let out := HTMLParser._fill_article_with_text soup
               (HTMLParser.__init__ url article_id cfg) in
  snd out = Ok tt
  /\ Article.text (HTMLParser.article (fst out))
     = concat (map node_text (find_all (lit "p") soup))
  /\ (map node_text (find_all (lit "p") soup) = [lit "Hello "; lit "world."]
      -> Article.text (HTMLParser.article (fst out)) = lit "Hello world.")
  /\ (find_all (lit "p") soup = [] ->
      Article.text (HTMLParser.article (fst out)) = []).
Proof.
  intro out; subst out; rewrite fill_text_spec; simpl.
  split; [reflexivity|].
  split; [reflexivity|].
  split; intros ->; reflexivity.
Qed.

Lemma C6_body_text_concatenation_witness :
  let text_of soup :=
    Article.text (HTMLParser.article
      (fst (HTMLParser._fill_article_with_text soup
              (HTMLParser.__init__ Sample.link_a 1 (Sample.config 3))))) in
  text_of Sample.article_page = lit "Hello world."
  /\ text_of Sample.bare_page = [].
Proof.
  intro text_of; split.
  - destruct (C6_body_text_concatenation Sample.article_page Sample.link_a 1
                (Sample.config 3)) as (_ & _ & Hhello & _).
    apply Hhello; reflexivity.
  - destruct (C6_body_text_concatenation Sample.bare_page Sample.link_a 1
                (Sample.config 3)) as (_ & _ & _ & Hnone).
    apply Hnone; reflexivity.
Defined.

(** One call of [parse]: the request is recorded; when it is answered the
    text is filled in, then the meta information, which may raise. *)
Lemma parse_unfold (E : Env) (self : HTMLParser.t) (w : World) :
  HTMLParser.parse E (self, w) =
  let w1 := mkWorld
              (trace w ++ [Request (py_of_href (HTMLParser._full_url self))])
              (fs w) in
  match requests_get E (py_of_href (HTMLParser._full_url self))
          (Config.get_headers (HTMLParser.config self))
          (Config.get_timeout (HTMLParser.config self))
          (Config.get_verify_certificate (HTMLParser.config self)) with
  | Raise e => ((self, w1), Raise e)
  | Ok response =>
      let soup := BeautifulSoup E (Response.text response) in
      let self1 := fst (HTMLParser._fill_article_with_text soup self) in
      match HTMLParser._fill_article_with_meta_information soup self1 with
      | (self2, Ok _) => ((self2, w1), Ok (HTMLParser.article self2))
      | (self2, Raise e) => ((self2, w1), Raise e)
      end
  end.
Proof.
  unfold HTMLParser.parse.
  unfold bind, on_self, on_world, get, make_request, log, lift_result, bind,
    ret; cbn [fst snd].
  destruct (requests_get E _ _ _ _) as [response|e]; [|reflexivity].
  rewrite fill_text_spec; cbn [fst snd].
  destruct (HTMLParser._fill_article_with_meta_information _ _)
    as [self2 [[]|e]]; reflexivity.
Qed.

(** The world matters to [parse] only as the place of the record of its
    request. *)
Lemma parse_world (E : Env) (self : HTMLParser.t) (w : World) :
  HTMLParser.parse E (self, w)
  = ((fst (parse_outcome E self),
      mkWorld (trace w ++ [Request (py_of_href (HTMLParser._full_url self))])
              (fs w)),
     snd (parse_outcome E self)).
Proof.
  unfold parse_outcome; rewrite !parse_unfold; cbv zeta.
  destruct (requests_get E _ _ _ _) as [response|e]; [|reflexivity].
  destruct (HTMLParser._fill_article_with_meta_information _ _)
    as [self2 [[]|e]]; reflexivity.
Qed.

(** The meta information leaves URL, identifier, configuration and body
    text as they are, whether it returns or raises. *)
Lemma fill_meta_keeps (soup : node) (self : HTMLParser.t) :
  let self' :=
    fst (HTMLParser._fill_article_with_meta_information soup self) in
  HTMLParser._full_url self' = HTMLParser._full_url self
  /\ HTMLParser._article_id self' = HTMLParser._article_id self
  /\ HTMLParser.config self' = HTMLParser.config self
  /\ Article.text (HTMLParser.article self')
     = Article.text (HTMLParser.article self)
  /\ Article.url (HTMLParser.article self')
     = Article.url (HTMLParser.article self)
  /\ Article.article_id (HTMLParser.article self')
     = Article.article_id (HTMLParser.article self).
Proof.
  destruct (find (lit "title") soup) as [title|] eqn:Hfind.
  - rewrite (fill_meta_spec soup title self Hfind); simpl; auto 10.
  - rewrite (fill_meta_missing_title soup self Hfind); simpl; auto 10.
Qed.

(** The text that the page behind the parser's URL adds to the record:
    nothing when the request fails. *)
Lemma parse_keeps (E : Env) (self : HTMLParser.t) :
  let self' := fst (parse_outcome E self) in
  HTMLParser._full_url self' = HTMLParser._full_url self
  /\ HTMLParser._article_id self' = HTMLParser._article_id self
  /\ HTMLParser.config self' = HTMLParser.config self
  /\ Article.url (HTMLParser.article self')
     = Article.url (HTMLParser.article self)
  /\ Article.article_id (HTMLParser.article self')
     = Article.article_id (HTMLParser.article self)
  /\ Article.text (HTMLParser.article self')
     = Article.text (HTMLParser.article self)
       ++ match requests_get E (py_of_href (HTMLParser._full_url self))
                  (Config.get_headers (HTMLParser.config self))
                  (Config.get_timeout (HTMLParser.config self))
                  (Config.get_verify_certificate (HTMLParser.config self))
          with
          | Ok response =>
              concat (map node_text
                        (find_all (lit "p")
                           (BeautifulSoup E (Response.text response))))
          | Raise _ => []
          end.
Proof.
  unfold parse_outcome; rewrite parse_unfold; cbv zeta.
  destruct (requests_get E _ _ _ _) as [response|e].
  - set (soup := BeautifulSoup E (Response.text response)).
    set (self1 := fst (HTMLParser._fill_article_with_text soup self)).
    destruct (fill_meta_keeps soup self1) as (Hu & Hi & Hc & Ht & Hau & Hai).
    assert (H1 : self1 = with_article self
              (Article.set_text
                 (Article.text (HTMLParser.article self)
                  ++ concat (map node_text (find_all (lit "p") soup)))
                 (HTMLParser.article self)))
      by (subst self1; rewrite fill_text_spec; reflexivity).
    destruct (HTMLParser._fill_article_with_meta_information soup self1)
      as [self2 [[]|e]]; cbn [fst snd] in *;
      rewrite Hu, Hi, Hc, Ht, Hau, Hai, H1; simpl; auto 10.
  - simpl; rewrite app_nil_r; auto 10.
Qed.

(** The same at the level of [parse]: when the request of a new parser is
    answered, the record holds the paragraph texts of the page as its
    body text, whether or not the meta information raises afterwards. *)
Corollary parse_body_text (E : Env) (url : href) (article_id : Z)
    (cfg : Config.t) (w : World) (response : Response.t) :
  requests_get E (py_of_href url) (Config.get_headers cfg)
    (Config.get_timeout cfg) (Config.get_verify_certificate cfg)
  = Ok response ->
  Article.text (HTMLParser.article
    (fst (fst (HTMLParser.parse E
                 (HTMLParser.__init__ url article_id cfg, w)))))
  = concat (map node_text
              (find_all (lit "p") (BeautifulSoup E (Response.text response)))).
Proof.
  intro Hget; rewrite parse_world; cbn [fst].
  destruct (parse_keeps E (HTMLParser.__init__ url article_id cfg))
    as (_ & _ & _ & _ & _ & Ht).
  cbv zeta in Ht; rewrite Ht; cbn [HTMLParser.__init__ HTMLParser._full_url
    HTMLParser.config].
  rewrite Hget; reflexivity.
Qed.

(** C10: a second [parse] on the same parser, the page behind the URL
    being the same, leaves the body text of the first parse twice over:
    the text is added to, not assigned; so the second call changes the
    record whenever the page has paragraph text. *)
Theorem C10_parse_accumulates_text (E : Env) (url : href) (article_id : Z)
    (cfg : Config.t) (w : World) :
  let once :=
    HTMLParser.parse E (HTMLParser.__init__ url article_id cfg, w) in
  let twice := HTMLParser.parse E (fst once) in
  let T := Article.text (HTMLParser.article (fst (fst once))) in
  Article.text (HTMLParser.article (fst (fst twice))) = T ++ T
  /\ (T <> [] -> Article.text (HTMLParser.article (fst (fst twice))) <> T).
Proof.
  intros once twice T; subst once twice T.
  set (self := HTMLParser.__init__ url article_id cfg).
  rewrite (parse_world E self w); cbn [fst snd].
  rewrite parse_world; cbn [fst snd].
  destruct (parse_keeps E self) as (Hu & _ & Hc & _ & _ & Ht).
  destruct (parse_keeps E (fst (parse_outcome E self)))
    as (_ & _ & _ & _ & _ & Ht2).
  cbv zeta in *.
  rewrite Hu, Hc in Ht2.
  set (added := match requests_get E _ _ _ _ with
                | Ok response => _
                | Raise _ => []
                end) in *.
  change (Article.text (HTMLParser.article self)) with (@nil char) in Ht.
  simpl in Ht.
  rewrite Ht2, Ht.
  split; [reflexivity|].
  intros Hne Heq; apply (f_equal (@length char)) in Heq.
  rewrite length_app in Heq.
  destruct added; [apply Hne; reflexivity | simpl in Heq; lia].
Qed.

Lemma C10_parse_accumulates_text_witness :
  let E := Sample.env PyNone Sample.no_listing Sample.article_page in
  let once :=
    HTMLParser.parse E
      (HTMLParser.__init__ Sample.link_a 1 (Sample.config 3), Sample.world) in
  let twice := HTMLParser.parse E (fst once) in
  Article.text (HTMLParser.article (fst (fst once))) = lit "Hello world."
  /\ Article.text (HTMLParser.article (fst (fst twice)))
     = lit "Hello world.Hello world."
  /\ Article.text (HTMLParser.article (fst (fst twice)))
     <> Article.text (HTMLParser.article (fst (fst once))).
Proof.
  intros E once twice.
  destruct (C10_parse_accumulates_text E Sample.link_a 1 (Sample.config 3)
              Sample.world) as [Htwice Hchanged].
  split; [reflexivity|].
  split; [exact Htwice|].
  apply Hchanged; discriminate.
Defined.

(** The author that the parser leaves when the document has a title:
    a list, of the characters of "NOT FOUND" when no paragraph carries
    the class [bio-name], of the children of that paragraph otherwise. *)
Lemma author_is_item_list (soup title : node) (self : HTMLParser.t) :
  find (lit "title") soup = Some title ->
  Article.author (HTMLParser.article
    (fst (HTMLParser._fill_article_with_meta_information soup self)))
  = PyList (author_items soup).
Proof.
  intro Hfind; rewrite (fill_meta_spec soup title self Hfind); reflexivity.
Qed.

Lemma author_items_absent (soup : node) :
  find_class (lit "p") (lit "bio-name") soup = None ->
  author_items soup = map (fun c => PyStr [c]) (lit "NOT FOUND").
Proof. intro H; unfold author_items; rewrite H; reflexivity. Qed.

Lemma author_items_present (soup : node) (name : str)
    (attrs : list (str * attr_value)) (contents : list node) :
  find_class (lit "p") (lit "bio-name") soup = Some (Tag name attrs contents)
  -> author_items soup = map PyNode contents.
Proof. intro H; unfold author_items; rewrite H; reflexivity. Qed.

(** C1, as the code has it: on an article without author element the
    author of the record is not the string "NOT FOUND" but the list of
    its nine characters; on an article whose author element holds markup
    it is not the text of the element but the list of its children. *)
Theorem C1_author_is_a_list_of_items :
  let self := HTMLParser.__init__ Sample.link_a 1 (Sample.config 3) in
  let author_of soup :=
    Article.author (HTMLParser.article
      (fst (HTMLParser._fill_article_with_meta_information soup self))) in
  find_class (lit "p") (lit "bio-name") Sample.article_page = None
  /\ author_of Sample.article_page
     = PyList [PyStr (lit "N"); PyStr (lit "O"); PyStr (lit "T");
               PyStr (lit " "); PyStr (lit "F"); PyStr (lit "O");
               PyStr (lit "U"); PyStr (lit "N"); PyStr (lit "D")]
  /\ author_of Sample.article_page <> PyStr (lit "NOT FOUND")
  /\ (exists author,
        find_class (lit "p") (lit "bio-name") Sample.signed_page = Some author
        /\ node_text author = lit "Ivan Petrov"
        /\ author_of Sample.signed_page
           = PyList [PyNode (Tag (lit "b") [] [NavigableString (lit "Ivan")]);
                     PyNode (NavigableString (lit " Petrov"))]
        /\ author_of Sample.signed_page <> PyStr (node_text author)).
Proof.
  intros self author_of.
  split; [reflexivity|].
  split; [reflexivity|].
  split; [discriminate|].
  eexists; split; [reflexivity|].
  split; [reflexivity|].
  split; [reflexivity | discriminate].
Qed.

(** ** The driver *)

Lemma numbered_from_cons (first : Z) (url : href) (rest : list href) :
  numbered_from first (url :: rest)
  = (first, url) :: numbered_from (first + 1) rest.
Proof.
  unfold numbered_from; cbn [length seq map combine].
  rewrite Z.add_0_r; f_equal.
  rewrite <- seq_shift, map_map; f_equal.
  apply map_ext; intro k; lia.
Qed.

Lemma numbered_from_fst_snd (first : Z) (urls : list href) :
  map fst (numbered_from first urls)
  = map (fun k => (first + Z.of_nat k)%Z) (seq 0 (length urls))
  /\ map snd (numbered_from first urls) = urls.
Proof.
  revert first; induction urls as [|url rest IH]; intro first.
  - split; reflexivity.
  - rewrite numbered_from_cons; cbn [map fst snd length seq].
    destruct (IH (first + 1)%Z) as [-> ->].
    split; [|reflexivity].
    rewrite Z.add_0_r; f_equal.
    rewrite <- seq_shift, map_map.
    apply map_ext; intro k; lia.
Qed.

(** The first URL of the frontier has position 1, the next one 2, and so
    on. *)
Lemma numbered_from_positions (urls : list href) :
  map fst (numbered_from 1 urls) = map Z.of_nat (seq 1 (length urls))
  /\ map snd (numbered_from 1 urls) = urls.
Proof.
  destruct (numbered_from_fst_snd 1 urls) as [Hfst Hsnd].
  split; [|exact Hsnd].
  rewrite Hfst, <- seq_shift, map_map.
  apply map_ext; intro k; lia.
Qed.

(** The record of a URL and an identifier carries both. *)
Lemma record_for_keeps (E : Env) (cfg : Config.t) (url : href)
    (article_id : Z) :
  Article.url (record_for E cfg url article_id) = url
  /\ Article.article_id (record_for E cfg url article_id) = article_id.
Proof.
  unfold record_for.
  destruct (parse_keeps E (HTMLParser.__init__ url article_id cfg))
    as (_ & _ & _ & Hu & Hi & _).
  cbv zeta in *; rewrite Hu, Hi; split; reflexivity.
Qed.

(** One turn of the driver's loop. *)
Lemma for_crawler_url_cons (E : Env) (cfg : Config.t) (url : href)
    (rest : list href) (article_id : Z) (w : World) :
  for_crawler_url E cfg (url :: rest) article_id w =
  let a := record_for E cfg url article_id in
  let w1 := mkWorld (trace w ++ [Request (py_of_href url)]) (fs w) in
  let w2 := mkWorld (trace w1 ++ [ToRaw a]) (fs w) in
  let w3 := mkWorld (trace w2 ++ [ToMeta a]) (fs w) in
  match snd (parse_outcome E (HTMLParser.__init__ url article_id cfg)) with
  | Raise e => (w1, Raise e)
  | Ok _ =>
      match to_raw_raises E a with
      | Some e => (w2, Raise e)
      | None =>
          match to_meta_raises E a with
          | Some e => (w3, Raise e)
          | None => for_crawler_url E cfg rest (article_id + 1) w3
          end
      end
  end.
Proof.
  cbn [for_crawler_url]; unfold record_for.
  unfold bind at 1; unfold call.
  rewrite parse_world; cbn [fst snd HTMLParser._full_url HTMLParser.__init__].
  destruct (snd (parse_outcome E _)) as [a|e]; [|reflexivity].
  unfold to_raw, to_meta, bind, log, raise, ret; cbn [fst snd trace fs].
  destruct (to_raw_raises E _); [reflexivity|].
  destruct (to_meta_raises E _); reflexivity.
Qed.

Arguments for_crawler_url : simpl never.

(** What the loop has recorded when it stops is the beginning of the
    complete run over the frontier, and the whole of it when the loop
    returns; the file tree is not touched. *)
Lemma for_crawler_url_trace (E : Env) (cfg : Config.t) (urls : list href) :
  forall (first : Z) (w : World),
    let out := for_crawler_url E cfg urls first w in
    (exists done rest,
        trace (fst out) = trace w ++ done
        /\ full_run E cfg first urls = done ++ rest)
    /\ (snd out = Ok tt ->
        trace (fst out) = trace w ++ full_run E cfg first urls).
Proof.
  induction urls as [|url rest IH]; intros first w out; subst out.
  - split.
    + exists [], []; split; [simpl; rewrite app_nil_r|]; reflexivity.
    + intros _; simpl; rewrite app_nil_r; reflexivity.
  - rewrite for_crawler_url_cons; cbv zeta.
    unfold full_run; rewrite numbered_from_cons; cbn [flat_map].
    fold (full_run E cfg (first + 1) rest).
    unfold turn; cbn [fst snd trace fs].
    set (a := record_for E cfg url first).
    destruct (snd (parse_outcome E _)) as [a'|e].
    2:{ split; [|discriminate].
        exists [Request (py_of_href url)]; eexists; split; reflexivity. }
    destruct (to_raw_raises E a) as [e|].
    { split; [|discriminate].
      exists [Request (py_of_href url); ToRaw a]; eexists.
      cbn [fst trace]; rewrite <- app_assoc; split; reflexivity. }
    destruct (to_meta_raises E a) as [e|].
    { split; [|discriminate].
      exists [Request (py_of_href url); ToRaw a; ToMeta a]; eexists.
      cbn [fst trace]; rewrite <- !app_assoc; split; reflexivity. }
    match goal with
    | |- context [for_crawler_url E cfg rest (first + 1)%Z ?w3] =>
        destruct (IH (first + 1)%Z w3) as [(done & rest' & Ht & Hrun) Hok]
    end.
    cbn [trace] in Ht, Hok.
    split.
    + exists ([Request (py_of_href url); ToRaw a; ToMeta a] ++ done), rest'.
      rewrite Ht, Hrun, <- !app_assoc; split; reflexivity.
    + intro Hret; rewrite (Hok Hret), <- !app_assoc; reflexivity.
Qed.

(** [main] runs the loop, from the identifier 1, over the frontier that
    the crawl has left, once the configuration is accepted, the crawl has
    returned and the output area is prepared. *)
Lemma main_runs_the_loop (E : Env) (w w1 w2 : World) (cfg : Config.t)
    (crawler : Crawler.t) :
  Config.__init__ E (CRAWLER_CONFIG_PATH E) = Ok cfg ->
  Crawler.find_articles E
    (Crawler.__init__ cfg,
     mkWorld (trace w ++ [Print (lit "start")]) (fs w))
  = ((crawler, w1), Ok tt) ->
  prepare_environment (ASSETS_PATH E) w1 = (w2, Ok tt) ->
  main E w = for_crawler_url E cfg (Crawler.urls crawler) 1 w2.
Proof.
  intros Hcfg Hfind Hprep.
  unfold main, bind, log, lift_result, call.
  rewrite Hcfg, Hfind, Hprep; reflexivity.
Qed.

(** C8: once the configuration is accepted, the crawl has returned and
    the output area is prepared, [main] takes the URLs of the frontier
    that the crawl has left, in order, the first with the identifier 1
    and each following one with the next integer; the record of a URL
    carries the URL and its identifier; for each URL the request comes
    first, then the record goes to the store of the raw text and after
    that to the store of the metadata.  What [main] has recorded past
    the preparation when it stops is a beginning of this sequence, and
    all of it when [main] returns. *)
Theorem C8_driver_order (E : Env) (w w1 w2 : World) (cfg : Config.t)
    (crawler : Crawler.t) :
  Config.__init__ E (CRAWLER_CONFIG_PATH E) = Ok cfg ->
  Crawler.find_articles E
    (Crawler.__init__ cfg,
     mkWorld (trace w ++ [Print (lit "start")]) (fs w))
  = ((crawler, w1), Ok tt) ->
  prepare_environment (ASSETS_PATH E) w1 = (w2, Ok tt) ->
  let urls := Crawler.urls crawler in
  let out := main E w in
  map fst (numbered_from 1 urls) = map Z.of_nat (seq 1 (length urls))
  /\ map snd (numbered_from 1 urls) = urls
  /\ (forall url i,
        Article.url (record_for E cfg url i) = url
        /\ Article.article_id (record_for E cfg url i) = i)
  /\ (exists done rest,
        trace (fst out) = trace w2 ++ done
        /\ full_run E cfg 1 urls = done ++ rest)
  /\ (snd out = Ok tt -> trace (fst out) = trace w2 ++ full_run E cfg 1 urls).
Proof.
  intros Hcfg Hcrawl Hprep urls out; subst urls out.
  rewrite (main_runs_the_loop E w w1 w2 cfg crawler Hcfg Hcrawl Hprep).
  destruct (numbered_from_positions (Crawler.urls crawler)) as [Hfst Hsnd].
  destruct (for_crawler_url_trace E cfg (Crawler.urls crawler) 1 w2)
    as [Hprefix Hall].
  split; [exact Hfst|].
  split; [exact Hsnd|].
  split; [intros url i; apply record_for_keeps|].
  split; [exact Hprefix | exact Hall].
Qed.

Lemma C8_driver_order_witness :
  let E := Sample.env
             (Sample.raw (PyList [Sample.seed_1; Sample.seed_2]) (PyInt 2)
                (PyInt 5) (PyBool true))
             (Sample.listing [Sample.link_a; Sample.link_b; Sample.link_c])
             Sample.article_page in
  let cfg := Sample.config 2 in
  trace (fst (main E Sample.world))
  = [Print (lit "start");
     Request Sample.seed_1;
     Request (py_of_href Sample.link_a);
     ToRaw (record_for E cfg Sample.link_a 1);
     ToMeta (record_for E cfg Sample.link_a 1);
     Request (py_of_href Sample.link_b);
     ToRaw (record_for E cfg Sample.link_b 2);
     ToMeta (record_for E cfg Sample.link_b 2)].
Proof.
  intros E cfg.
  destruct (C8_driver_order E Sample.world
              (mkWorld [Print (lit "start"); Request Sample.seed_1] (Dir []))
              (mkWorld [Print (lit "start"); Request Sample.seed_1]
                 (Dir [(lit "tmp", Dir [(lit "articles", Dir [])])]))
              cfg (Crawler.mk cfg [Sample.link_a; Sample.link_b])
              eq_refl eq_refl eq_refl)
    as (_ & _ & _ & _ & Hall).
  exact (Hall eq_refl).
Defined.

(** ** The output area *)

Section Entries.
Context {A : Type}.
Implicit Types (d : list (str * A)) (k : str) (v : A).

Lemma assoc_app_new k v d :
  assoc k d = None -> assoc k (d ++ [(k, v)]) = Some v.
Proof.
  induction d as [|[k' v'] d IH]; simpl.
  - rewrite str_eqb_refl; reflexivity.
  - destruct (str_eqb k k'); [discriminate | exact IH].
Qed.

Lemma remove_key_absent k d : assoc k d = None -> remove_key k d = d.
Proof.
  induction d as [|[k' v'] d IH]; simpl; [reflexivity|].
  destruct (str_eqb k k'); [discriminate|].
  intro H; rewrite (IH H); reflexivity.
Qed.

Lemma assoc_remove_key k d : assoc k (remove_key k d) = None.
Proof.
  induction d as [|[k' v'] d IH]; simpl; [reflexivity|].
  destruct (str_eqb k k') eqn:Hk; [exact IH|].
  simpl; rewrite Hk; exact IH.
Qed.

Lemma remove_key_app_new k v d :
  remove_key k (d ++ [(k, v)]) = remove_key k d.
Proof.
  induction d as [|[k' v'] d IH]; simpl.
  - rewrite str_eqb_refl; reflexivity.
  - destruct (str_eqb k k'); rewrite IH; reflexivity.
Qed.

Lemma assoc_set_key k v d : assoc k (set_key k v d) = Some v.
Proof.
  induction d as [|[k' v'] d IH]; simpl.
  - rewrite str_eqb_refl; reflexivity.
  - destruct (str_eqb k k') eqn:Hk; simpl.
    + rewrite str_eqb_refl; reflexivity.
    + rewrite Hk; exact IH.
Qed.

Lemma set_key_twice k v v' d :
  set_key k v (set_key k v' d) = set_key k v d.
Proof.
  induction d as [|[k' v''] d IH]; simpl.
  - rewrite str_eqb_refl; reflexivity.
  - destruct (str_eqb k k') eqn:Hk; simpl.
    + rewrite str_eqb_refl; reflexivity.
    + rewrite Hk, IH; reflexivity.
Qed.

Lemma set_key_app_new k v v' d :
  assoc k d = None -> set_key k v (d ++ [(k, v')]) = d ++ [(k, v)].
Proof.
  induction d as [|[k' v''] d IH]; simpl.
  - rewrite str_eqb_refl; reflexivity.
  - destruct (str_eqb k k'); [discriminate|].
    intro H; rewrite (IH H); reflexivity.
Qed.
End Entries.

(** Induction along a chain of links. *)
Lemma fsnode_links_ind (P : fsnode -> Prop) :
  (forall data, P (File data)) ->
  (forall entries, P (Dir entries)) ->
  P (Link None) ->
  (forall target, P target -> P (Link (Some target))) ->
  forall n, P n.
Proof.
  intros Hfile Hdir Hnone Hsome.
  fix IH 1; intros [data|entries|[target|]].
  - apply Hfile.
  - apply Hdir.
  - apply Hsome, IH.
  - apply Hnone.
Qed.

Lemma resolve_not_link (n : fsnode) (t : option fsnode) :
  resolve n <> Some (Link t).
Proof.
  induction n using fsnode_links_ind; simpl; try discriminate; assumption.
Qed.

Lemma resolve_rebuild (n : fsnode) (entries entries' : list (str * fsnode)) :
  resolve n = Some (Dir entries) ->
  resolve (rebuild n entries') = Some (Dir entries').
Proof.
  induction n using fsnode_links_ind; simpl; try discriminate;
    [reflexivity | assumption].
Qed.

Lemma rebuild_rebuild (n : fsnode) (e1 e2 : list (str * fsnode)) :
  rebuild (rebuild n e1) e2 = rebuild n e2.
Proof.
  induction n using fsnode_links_ind; simpl; try reflexivity.
  rewrite IHn; reflexivity.
Qed.

Lemma in_dir_ok (dangling : exn) (n n1 : fsnode)
    (change : list (str * fsnode) -> result (list (str * fsnode))) :
  in_dir dangling n change = Ok n1 ->
  exists entries entries',
    resolve n = Some (Dir entries)
    /\ change entries = Ok entries'
    /\ n1 = rebuild n entries'.
Proof.
  unfold in_dir.
  destruct (resolve n) as [[data|entries|t]|]; try discriminate.
  destruct (change entries) as [entries'|e] eqn:Hc; simpl; [|discriminate].
  intro H; inversion H; exists entries, entries'; auto.
Qed.

(** The functions on a path of one component and on a longer one, below
    a node that leads to a directory. *)
Lemma rmtree_ok_dir (c : str) (p : path) (n n1 : fsnode) :
  rmtree (c :: p) n = Ok n1 -> exists entries, resolve n = Some (Dir entries).
Proof.
  intro H; apply in_dir_ok in H; destruct H as (entries & _ & H & _).
  exists entries; exact H.
Qed.

Lemma mkdir_ok_dir (c : str) (p : path) (n n2 : fsnode) :
  mkdir_parents (c :: p) n = Ok n2 ->
  exists entries, resolve n = Some (Dir entries).
Proof.
  intro H; apply in_dir_ok in H; destruct H as (entries & _ & H & _).
  exists entries; exact H.
Qed.

Lemma rmtree_last (c : str) (n : fsnode) (entries : list (str * fsnode)) :
  resolve n = Some (Dir entries) ->
  rmtree [c] n =
  match assoc c entries with
  | None => Raise FileNotFoundError
  | Some (Dir _) => Ok (rebuild n (remove_key c entries))
  | Some (File _) => Raise NotADirectoryError
  | Some (Link t) =>
      match resolve (Link t) with
      | Some _ => Raise OSError
      | None => Raise FileNotFoundError
      end
  end.
Proof.
  intro Hres; cbn [rmtree]; unfold in_dir; rewrite Hres.
  destruct (assoc c entries) as [[data|sub|t]|]; try reflexivity.
  destruct (resolve (Link t)); reflexivity.
Qed.

Lemma rmtree_below (c c' : str) (p : path) (n : fsnode)
    (entries : list (str * fsnode)) :
  resolve n = Some (Dir entries) ->
  rmtree (c :: c' :: p) n =
  match assoc c entries with
  | None => Raise FileNotFoundError
  | Some child =>
      child' <~ rmtree (c' :: p) child ;;
      Ok (rebuild n (set_key c child' entries))
  end.
Proof.
  intro Hres.
  change (rmtree (c :: c' :: p) n)
    with (in_dir FileNotFoundError n (fun entries =>
            match assoc c entries with
            | None => Raise FileNotFoundError
            | Some child =>
                child' <~ rmtree (c' :: p) child ;;
                Ok (set_key c child' entries)
            end)).
  unfold in_dir; rewrite Hres.
  destruct (assoc c entries) as [child|]; [|reflexivity].
  destruct (rmtree (c' :: p) child); reflexivity.
Qed.

Lemma mkdir_last (c : str) (n : fsnode) (entries : list (str * fsnode)) :
  resolve n = Some (Dir entries) ->
  mkdir_parents [c] n =
  match assoc c entries with
  | Some _ => Raise FileExistsError
  | None => Ok (rebuild n (entries ++ [(c, Dir [])]))
  end.
Proof.
  intro Hres; cbn [mkdir_parents]; unfold in_dir; rewrite Hres.
  destruct (assoc c entries); reflexivity.
Qed.

Lemma mkdir_below (c c' : str) (p : path) (n : fsnode)
    (entries : list (str * fsnode)) :
  resolve n = Some (Dir entries) ->
  mkdir_parents (c :: c' :: p) n =
  match assoc c entries with
  | Some child =>
      child' <~ mkdir_parents (c' :: p) child ;;
      Ok (rebuild n (set_key c child' entries))
  | None =>
      child' <~ mkdir_parents (c' :: p) (Dir []) ;;
      Ok (rebuild n (entries ++ [(c, child')]))
  end.
Proof.
  intro Hres.
  change (mkdir_parents (c :: c' :: p) n)
    with (in_dir FileExistsError n (fun entries =>
            match assoc c entries with
            | Some child =>
                child' <~ mkdir_parents (c' :: p) child ;;
                Ok (set_key c child' entries)
            | None =>
                child' <~ mkdir_parents (c' :: p) (Dir []) ;;
                Ok (entries ++ [(c, child')])
            end)).
  unfold in_dir; rewrite Hres.
  destruct (assoc c entries) as [child|].
  - destruct (mkdir_parents (c' :: p) child); reflexivity.
  - destruct (mkdir_parents (c' :: p) (Dir [])); reflexivity.
Qed.

Lemma fs_lookup_cons (c : str) (p : path) (n : fsnode)
    (entries : list (str * fsnode)) :
  resolve n = Some (Dir entries) ->
  fs_lookup (c :: p) n =
  match assoc c entries with
  | Some child => fs_lookup p child
  | None => None
  end.
Proof. intro Hres; cbn [fs_lookup]; rewrite Hres; reflexivity. Qed.

Lemma clear_along_cons (c : str) (p : path) (n : fsnode)
    (entries : list (str * fsnode)) :
  resolve n = Some (Dir entries) ->
  clear_along (c :: p) n =
  match assoc c entries with
  | None => true
  | Some child => clear_along p child
  end.
Proof. intro Hres; cbn [clear_along]; rewrite Hres; reflexivity. Qed.

Lemma clear_along_dir (c : str) (p : path) (n : fsnode) :
  clear_along (c :: p) n = true ->
  exists entries, resolve n = Some (Dir entries).
Proof.
  cbn [clear_along].
  destruct (resolve n) as [[data|entries|t]|]; try discriminate.
  intros _; exists entries; reflexivity.
Qed.

Lemma fs_lookup_step (c : str) (p : path) (n : fsnode) :
  fs_lookup (c :: p) n =
  match resolve n with
  | Some (Dir entries) =>
      match assoc c entries with
      | Some child => fs_lookup p child
      | None => None
      end
  | _ => None
  end.
Proof. reflexivity. Qed.

Lemma mkdir_step (c : str) (p : path) (n : fsnode) :
  mkdir_parents (c :: p) n =
  in_dir FileExistsError n (fun entries =>
    match assoc c entries, p with
    | Some _, [] => Raise FileExistsError
    | Some child, _ :: _ =>
        child' <~ mkdir_parents p child ;; Ok (set_key c child' entries)
    | None, [] => Ok (entries ++ [(c, Dir [])])
    | None, _ :: _ =>
        child' <~ mkdir_parents p (Dir []) ;; Ok (entries ++ [(c, child')])
    end).
Proof. reflexivity. Qed.

Arguments rmtree : simpl never.
Arguments mkdir_parents : simpl never.
Arguments fs_lookup : simpl never.
Arguments clear_along : simpl never.

(** A directory that [mkdir] has just made is empty; removing it and
    making it again gives the same file tree. *)
Lemma mkdir_then_again (p : path) :
  forall n n2 : fsnode,
    mkdir_parents p n = Ok n2 ->
    fs_lookup p n2 = Some (Dir [])
    /\ exists n1, rmtree p n2 = Ok n1 /\ mkdir_parents p n1 = Ok n2.
Proof.
  induction p as [|c p IH]; intros n n2 Hmk; [discriminate|].
  destruct (mkdir_ok_dir c p n n2 Hmk) as (entries & Hres).
  destruct p as [|c' p'].
  - rewrite (mkdir_last c n entries Hres) in Hmk.
    destruct (assoc c entries) as [child|] eqn:Hc; [discriminate|].
    inversion Hmk; subst n2; clear Hmk.
    pose proof (resolve_rebuild n entries (entries ++ [(c, Dir [])]) Hres)
      as Hres2.
    rewrite (fs_lookup_cons c [] _ _ Hres2), (rmtree_last c _ _ Hres2).
    rewrite (assoc_app_new _ _ _ Hc).
    split; [reflexivity|].
    eexists; split; [reflexivity|].
    rewrite rebuild_rebuild, remove_key_app_new, (remove_key_absent _ _ Hc).
    rewrite (mkdir_last c _ entries (resolve_rebuild n entries entries Hres)).
    rewrite Hc, rebuild_rebuild; reflexivity.
  - rewrite (mkdir_below c c' p' n entries Hres) in Hmk.
    destruct (assoc c entries) as [child|] eqn:Hc.
    + destruct (mkdir_parents (c' :: p') child) as [child'|e] eqn:Hmk';
        [|discriminate].
      simpl in Hmk; inversion Hmk; subst n2; clear Hmk.
      destruct (IH child child' Hmk') as (Hlook & ch1 & Hrm & Hmk1).
      pose proof (resolve_rebuild n entries (set_key c child' entries) Hres)
        as Hres2.
      rewrite (fs_lookup_cons c _ _ _ Hres2), (rmtree_below c c' p' _ _ Hres2).
      rewrite assoc_set_key.
      split; [exact Hlook|].
      rewrite Hrm; cbn [and_then]; eexists; split; [reflexivity|].
      rewrite rebuild_rebuild, set_key_twice.
      rewrite (mkdir_below c c' p' _ _
                 (resolve_rebuild n entries (set_key c ch1 entries) Hres)).
      rewrite assoc_set_key, Hmk1; cbn [and_then].
      rewrite rebuild_rebuild, set_key_twice; reflexivity.
    + destruct (mkdir_parents (c' :: p') (Dir [])) as [child'|e] eqn:Hmk';
        [|discriminate].
      simpl in Hmk; inversion Hmk; subst n2; clear Hmk.
      destruct (IH (Dir []) child' Hmk') as (Hlook & ch1 & Hrm & Hmk1).
      pose proof (resolve_rebuild n entries (entries ++ [(c, child')]) Hres)
        as Hres2.
      rewrite (fs_lookup_cons c _ _ _ Hres2), (rmtree_below c c' p' _ _ Hres2).
      rewrite (assoc_app_new _ _ _ Hc).
      split; [exact Hlook|].
      rewrite Hrm; cbn [and_then]; eexists; split; [reflexivity|].
      rewrite rebuild_rebuild, (set_key_app_new _ _ _ _ Hc).
      rewrite (mkdir_below c c' p' _ _
                 (resolve_rebuild n entries (entries ++ [(c, ch1)]) Hres)).
      rewrite (assoc_app_new _ _ _ Hc), Hmk1; cbn [and_then].
      rewrite rebuild_rebuild, (set_key_app_new _ _ _ _ Hc); reflexivity.
Qed.

(** [rmtree] removes a directory and leaves the path clear. *)
Lemma rmtree_succeeds (p : path) :
  forall n,
    p <> [] ->
    clear_along p n = true ->
    fs_lookup p n <> None ->
    exists n1, rmtree p n = Ok n1
               /\ fs_lookup p n1 = None
               /\ clear_along p n1 = true.
Proof.
  induction p as [|c p IH]; intros n Hp Hclear Hthere; [contradiction|].
  destruct (clear_along_dir c p n Hclear) as (entries & Hres).
  rewrite (clear_along_cons c p n entries Hres) in Hclear.
  rewrite (fs_lookup_cons c p n entries Hres) in Hthere.
  destruct (assoc c entries) as [child|] eqn:Hc; [|contradiction].
  destruct p as [|c' p'].
  - destruct child as [data|sub|t]; try discriminate.
    rewrite (rmtree_last c n entries Hres), Hc.
    eexists; split; [reflexivity|].
    pose proof (resolve_rebuild n entries (remove_key c entries) Hres)
      as Hres1.
    rewrite (fs_lookup_cons c [] _ _ Hres1), (clear_along_cons c [] _ _ Hres1).
    rewrite assoc_remove_key; split; reflexivity.
  - destruct (IH child) as (ch1 & Hrm & Hnone & Hclear1);
      [discriminate | exact Hclear | exact Hthere |].
    rewrite (rmtree_below c c' p' n entries Hres), Hc, Hrm; cbn [and_then].
    eexists; split; [reflexivity|].
    pose proof (resolve_rebuild n entries (set_key c ch1 entries) Hres)
      as Hres1.
    rewrite (fs_lookup_cons c _ _ _ Hres1), (clear_along_cons c _ _ _ Hres1).
    rewrite assoc_set_key; split; assumption.
Qed.

(** [mkdir] makes a missing directory when the path is clear. *)
Lemma mkdir_succeeds (p : path) :
  forall n,
    fs_lookup p n = None ->
    clear_along p n = true ->
    exists n2, mkdir_parents p n = Ok n2.
Proof.
  induction p as [|c p IH]; intros n Hlook Hclear.
  - destruct n; discriminate.
  - destruct (clear_along_dir c p n Hclear) as (entries & Hres).
    rewrite (clear_along_cons c p n entries Hres) in Hclear.
    rewrite (fs_lookup_cons c p n entries Hres) in Hlook.
    destruct p as [|c' p'].
    + rewrite (mkdir_last c n entries Hres).
      destruct (assoc c entries) as [child|]; [|eexists; reflexivity].
      destruct child; discriminate.
    + rewrite (mkdir_below c c' p' n entries Hres).
      destruct (assoc c entries) as [child|].
      * destruct (IH child Hlook Hclear) as (child' & ->).
        eexists; reflexivity.
      * destruct (IH (Dir [])) as (child' & ->);
          [reflexivity | reflexivity |].
        eexists; reflexivity.
Qed.

(** One call: what it does to the file tree. *)
Lemma prepare_environment_unfold (base_path : path) (w : World) :
  prepare_environment base_path w =
  if exists_ base_path (fs w) then
    match rmtree base_path (fs w) with
    | Raise e => (w, Raise e)
    | Ok n1 =>
        match mkdir_parents base_path n1 with
        | Raise e => (mkWorld (trace w) n1, Raise e)
        | Ok n2 => (mkWorld (trace w) n2, Ok tt)
        end
    end
  else
    match mkdir_parents base_path (fs w) with
    | Raise e => (w, Raise e)
    | Ok n2 => (mkWorld (trace w) n2, Ok tt)
    end.
Proof.
  unfold prepare_environment, bind, get, change_fs, ret.
  destruct (exists_ base_path (fs w)).
  - destruct (rmtree base_path (fs w)) as [n1|e]; [|reflexivity].
    cbn [fs trace].
    destruct (mkdir_parents base_path n1); reflexivity.
  - destruct (mkdir_parents base_path (fs w)); reflexivity.
Qed.

(** After a call that returned, the path is an empty directory and a
    further call returns and changes nothing. *)
Lemma prepare_environment_again (base_path : path) (w w1 : World) :
  prepare_environment base_path w = (w1, Ok tt) ->
  trace w1 = trace w
  /\ fs_lookup base_path (fs w1) = Some (Dir [])
  /\ prepare_environment base_path w1 = (w1, Ok tt).
Proof.
  rewrite prepare_environment_unfold.
  assert (Hmk : forall n n2,
             mkdir_parents base_path n = Ok n2 ->
             let w1 := mkWorld (trace w) n2 in
             trace w1 = trace w
             /\ fs_lookup base_path (fs w1) = Some (Dir [])
             /\ prepare_environment base_path w1 = (w1, Ok tt)).
  { intros n n2 H w2; subst w2.
    destruct (mkdir_then_again base_path n n2 H) as (Hlook & n1 & Hrm & Hmk).
    split; [reflexivity|].
    split; [exact Hlook|].
    rewrite prepare_environment_unfold; unfold exists_; cbn [fs trace].
    rewrite Hlook, Hrm, Hmk; reflexivity. }
  destruct (exists_ base_path (fs w)).
  - destruct (rmtree base_path (fs w)) as [n1|e]; [|discriminate].
    destruct (mkdir_parents base_path n1) as [n2|e] eqn:H; [|discriminate].
    intro Heq; inversion Heq; subst w1; exact (Hmk n1 n2 H).
  - destruct (mkdir_parents base_path (fs w)) as [n2|e] eqn:H; [|discriminate].
    intro Heq; inversion Heq; subst w1; exact (Hmk (fs w) n2 H).
Qed.

(** A call returns when the path is clear. *)
Lemma prepare_environment_returns (base_path : path) (w : World) :
  base_path <> [] ->
  clear_along base_path (fs w) = true ->
  exists w1, prepare_environment base_path w = (w1, Ok tt).
Proof.
  intros Hp Hclear; rewrite prepare_environment_unfold; unfold exists_.
  destruct (fs_lookup base_path (fs w)) as [found|] eqn:Hlook.
  - destruct (rmtree_succeeds base_path (fs w) Hp Hclear)
      as (n1 & -> & Hnone & Hclear1); [rewrite Hlook; discriminate|].
    destruct (mkdir_succeeds base_path n1 Hnone Hclear1) as (n2 & ->).
    eexists; reflexivity.
  - destruct (mkdir_succeeds base_path (fs w) Hlook Hclear) as (n2 & ->).
    eexists; reflexivity.
Qed.

(** Two calls in succession act as one, whether the first returns or
    raises. *)
Lemma prepare_environment_twice (base_path : path) (w : World) :
  (prepare_environment base_path ;;; prepare_environment base_path) w
  = prepare_environment base_path w.
Proof.
  unfold bind.
  destruct (prepare_environment base_path w) as [w1 [[]|e]] eqn:H;
    [|reflexivity].
  apply prepare_environment_again in H; apply H.
Qed.




Example prepare_environment_on_regular_file :
  let w := mkWorld [] (Dir [(lit "articles", File (lit "old"))]) in
  prepare_environment [lit "articles"] w = (w, Raise NotADirectoryError).
Proof. reflexivity. Qed.

(** A symbolic link at the path stops the call too: [rmtree] refuses a
    link that leads somewhere, [mkdir] finds a link that dangles in its
    way; and the root of the tree cannot be prepared. *)
Example prepare_environment_on_link :
  let to_dir := mkWorld []
                  (Dir [(lit "articles", Link (Some (Dir [])))]) in
  let dangling := mkWorld [] (Dir [(lit "articles", Link None)]) in
  prepare_environment [lit "articles"] to_dir = (to_dir, Raise OSError)
  /\ prepare_environment [lit "articles"] dangling
     = (dangling, Raise FileExistsError)
  /\ prepare_environment [] (mkWorld [] (Dir []))
     = (mkWorld [] (Dir []), Raise OSError).
Proof. repeat split. Qed.

(** * Further properties *)

(** ** Config *)

Lemma check_seed_urls_iff (urls : list pyval) :
  Config.check_seed_urls urls = Ok tt <-> forallb seed_url_rule urls = true.
Proof.
  split; [|apply check_seed_urls_ok].
  destruct (forallb seed_url_rule urls) eqn:H; [reflexivity|].
  rewrite (check_seed_urls_fails _ H); discriminate.
Qed.

Lemma validate_iff_rules (self : Config.t) :
  Config._validate_config_content self = Ok tt <-> config_rules self = true.
Proof.
  unfold Config._validate_config_content, config_rules.
  destruct self as [p seeds num hd enc tm vf hl]; simpl.
  destruct seeds; simpl; try (split; discriminate).
  destruct (forallb seed_url_rule l) eqn:Hs.
  2:{ rewrite (check_seed_urls_fails _ Hs); simpl; split; discriminate. }
  rewrite (check_seed_urls_ok _ Hs); simpl.
  unfold count_rule, timeout_rule.
  destruct (as_int num) as [n|]; [|split; discriminate].
  destruct (n <=? 0)%Z eqn:H0.
  { assert (H : (0 <? n)%Z = false) by lia.
    rewrite H; simpl; split; discriminate. }
  assert (H : (0 <? n)%Z = true) by lia.
  rewrite H; simpl.
  destruct (n >? 150)%Z eqn:H1.
  { assert (H2 : (n <? 0)%Z = false) by lia.
    assert (H3 : (n <=? 150)%Z = false) by lia.
    rewrite H2, H3; simpl; split; discriminate. }
  assert (H2 : (n <? 0)%Z = false) by lia.
  assert (H3 : (n <=? 150)%Z = true) by lia.
  rewrite H2, H3; simpl.
  destruct (isinstance_dict hd); simpl; [|split; discriminate].
  destruct (isinstance_str enc); simpl; [|split; discriminate].
  destruct (as_int tm) as [t|]; [|split; discriminate].
  destruct (t <=? 0)%Z eqn:H4.
  { assert (H5 : (0 <? t)%Z = false) by lia.
    rewrite H5; simpl; split; discriminate. }
  assert (H5 : (0 <? t)%Z = true) by lia.
  rewrite H5; simpl.
  destruct (t >? 60)%Z eqn:H6.
  { assert (H7 : (t <=? 60)%Z = false) by lia.
    rewrite H7; simpl; split; discriminate. }
  assert (H7 : (t <=? 60)%Z = true) by lia.
  rewrite H7; simpl.
  destruct (isinstance_bool vf), (isinstance_bool hl); simpl;
    split; (reflexivity || discriminate).
Qed.

(** X1: a configuration that [Config.__init__] returns keeps every rule:
    its seed URLs are a list of strings that hold the site's address, its
    count is an integer from 1 to 150, its headers a dict, its encoding a
    string, its timeout an integer from 1 to 60, its two flags booleans;
    and it holds the values of the file, unchanged. *)
Theorem X1_constructed_config_keeps_rules (E : Env) (p : path)
    (cfg : Config.t) :
  Config.__init__ E p = Ok cfg ->
  config_rules cfg = true
  /\ exists c, Config._extract_config_content E p = Ok c
               /\ cfg = config_of p c.
Proof.
  intro H.
  destruct (Config._extract_config_content E p) as [c|e] eqn:Hx.
  - rewrite (Config_init_unfold E p c Hx) in H.
    destruct (Config._validate_config_content (config_of p c)) as [[]|e]
      eqn:Hv; [|discriminate].
    inversion H; subst cfg.
    split; [apply validate_iff_rules, Hv | exists c; split; reflexivity].
  - unfold Config.__init__ in H; rewrite Hx in H; discriminate.
Qed.

Lemma X1_constructed_config_keeps_rules_witness :
  let E := Sample.env
             (Sample.raw (PyList [Sample.seed_1; Sample.seed_2]) (PyInt 3)
                (PyInt 5) (PyBool true))
             Sample.no_listing Sample.bare_page in
  config_rules (Sample.config 3) = true
  /\ exists c, Config._extract_config_content E [lit "scraper_config.json"]
               = Ok c
               /\ Sample.config 3 = config_of [lit "scraper_config.json"] c.
Proof.
  intro E.
  apply (X1_constructed_config_keeps_rules E [lit "scraper_config.json"]
           (Sample.config 3)).
  reflexivity.
Defined.

(** X2: the checks run in a fixed order (seed URLs, count, headers,
    encoding, timeout, flags) and the first field that breaks its rule
    decides the error, whatever the fields checked after it hold. *)
Theorem X2_first_broken_field_decides (E : Env) (p : path)
    (c : ConfigDTO.t) (v : violation) :
  Config._extract_config_content E p = Ok c ->
  breaks v c ->
  earlier_hold v c ->
  Config.__init__ E p = Raise (error_kind v).
Proof.
  intros Hx Hb (Hs & Hc & Hh & He & Ht).
  rewrite (Config_init_unfold E p c Hx).
  unfold Config._validate_config_content; simpl.
  destruct v; simpl in *;
    try (destruct (seed_urls_rule_inv _ (Hs ltac:(lia)))
           as (urls & -> & ->); simpl).
  - destruct (ConfigDTO.seed_urls c); try reflexivity.
    simpl in Hb; rewrite (check_seed_urls_fails _ Hb); reflexivity.
  - destruct (as_int (ConfigDTO.total_articles c)) as [n|]; [|reflexivity].
    apply Z.leb_le in Hb; rewrite Hb; reflexivity.
  - destruct Hb as (n & -> & Hn).
    assert (H0 : (n <=? 0)%Z = false) by lia.
    assert (H1 : ((n <? 0) || (n >? 150))%Z = true)
      by (apply orb_true_iff; right; lia).
    rewrite H0, H1; reflexivity.
  - destruct (count_rule_inv _ (Hc ltac:(lia))) as (n & -> & -> & ->).
    rewrite Hb; reflexivity.
  - destruct (count_rule_inv _ (Hc ltac:(lia))) as (n & -> & -> & ->).
    rewrite (Hh ltac:(lia)), Hb; reflexivity.
  - destruct (count_rule_inv _ (Hc ltac:(lia))) as (n & -> & -> & ->).
    rewrite (Hh ltac:(lia)), (He ltac:(lia)); simpl.
    pose proof (timeout_rule_fails _ Hb) as Hbad.
    destruct (as_int (ConfigDTO.timeout c)) as [tm|]; [|reflexivity].
    rewrite Hbad; reflexivity.
  - destruct (count_rule_inv _ (Hc ltac:(lia))) as (n & -> & -> & ->).
    rewrite (Hh ltac:(lia)), (He ltac:(lia)); simpl.
    destruct (timeout_rule_inv _ (Ht ltac:(lia))) as (tm & -> & ->).
    rewrite Hb; reflexivity.
  - destruct (count_rule_inv _ (Hc ltac:(lia))) as (n & -> & -> & ->).
    rewrite (Hh ltac:(lia)), (He ltac:(lia)); simpl.
    destruct (timeout_rule_inv _ (Ht ltac:(lia))) as (tm & -> & ->).
    rewrite Hb, orb_true_r; reflexivity.
Qed.

Lemma X2_first_broken_field_decides_witness :
  let run total headers timeout :=
    Config.__init__
      (Sample.env
         (PyDict
            [(lit "seed_urls", PyList [Sample.seed_1]);
             (lit "total_articles_to_find_and_parse", total);
             (lit "headers", headers);
             (lit "encoding", PyNone);
             (lit "timeout", timeout);
             (lit "should_verify_certificate", PyStr (lit "yes"));
             (lit "headless_mode", PyNone)])
         Sample.no_listing Sample.bare_page)
      [lit "scraper_config.json"] in
  run (PyInt 0) (PyList []) (PyInt 0) = Raise IncorrectNumberOfArticlesError
  /\ run (PyInt 7) (PyList []) (PyInt 0) = Raise IncorrectHeadersError.
Proof.
  intro run.
  pose (dto total headers timeout :=
          ConfigDTO.mk (PyList [Sample.seed_1]) total headers PyNone timeout
            (PyStr (lit "yes")) PyNone).
  split.
  - apply (X2_first_broken_field_decides _ _
             (dto (PyInt 0) (PyList []) (PyInt 0)) CountNotPositive);
      [reflexivity | simpl; lia |].
    unfold earlier_hold; simpl.
    refine (conj _ (conj _ (conj _ (conj _ _)))); intro H;
      first [reflexivity | exfalso; lia].
  - apply (X2_first_broken_field_decides _ _
             (dto (PyInt 7) (PyList []) (PyInt 0)) Headers);
      [reflexivity | reflexivity |].
    unfold earlier_hold; simpl.
    refine (conj _ (conj _ (conj _ (conj _ _)))); intro H;
      first [reflexivity | exfalso; lia].
Defined.

(** X3: when the JSON object of the configuration file lacks one of the
    seven keys, reading the configuration raises [KeyError], and so does
    constructing it: no field is validated and no default is used. *)
Theorem X3_missing_key_raises (E : Env) (p : path)
    (d : list (str * pyval)) (k : str) :
  json_load E p = Ok (PyDict d) ->
  In k config_keys ->
  assoc k d = None ->
  Config._extract_config_content E p = Raise KeyError
  /\ Config.__init__ E p = Raise KeyError.
Proof.
  intros Hload Hk Hnone.
  assert (Hx : Config._extract_config_content E p = Raise KeyError).
  { unfold Config._extract_config_content; rewrite Hload.
    cbn [and_then]; unfold py_getitem.
    unfold config_keys in Hk; simpl in Hk.
    repeat match goal with
           | |- context [assoc ?key d] =>
               let H := fresh "Hkey" in
               destruct (assoc key d) eqn:H; cbn [and_then];
               [|reflexivity]
           end.
    exfalso.
    repeat (destruct Hk as [<-|Hk]; [congruence|]); exact Hk. }
  split; [exact Hx|].
  unfold Config.__init__; rewrite Hx; reflexivity.
Qed.

Lemma X3_missing_key_raises_witness :
  let E := Sample.env
             (PyDict [(lit "seed_urls", PyList [Sample.seed_1]);
                      (lit "total_articles_to_find_and_parse", PyInt 3)])
             Sample.no_listing Sample.bare_page in
  Config._extract_config_content E [lit "scraper_config.json"]
  = Raise KeyError
  /\ Config.__init__ E [lit "scraper_config.json"] = Raise KeyError.
Proof.
  intro E.
  apply (X3_missing_key_raises E [lit "scraper_config.json"]
           [(lit "seed_urls", PyList [Sample.seed_1]);
            (lit "total_articles_to_find_and_parse", PyInt 3)]
           (lit "timeout")).
  - reflexivity.
  - simpl; auto 10.
  - reflexivity.
Defined.

(** ** Crawler *)

(** The loop over the links of a page, on a frontier with room for
    [S k] more links: it appends the new links of the page, in order, up
    to that room, and returns early exactly when the room is used up. *)
Lemma for_url_new_links (links : list href) :
  forall (cfg : Config.t) (urls : list href) (n : Z) (k : nat),
    as_int (Config.get_num_articles cfg) = Some n ->
    (Z.of_nat (length urls) + Z.of_nat (S k) = n)%Z ->
    Crawler.for_url links (Crawler.mk cfg urls)
    = (Crawler.mk cfg (urls ++ firstn (S k) (new_links urls links)),
       Ok (S k <=? length (new_links urls links))%nat).
Proof.
  induction links as [|url rest IH]; intros cfg urls n k Hn Hroom.
  - rewrite for_url_nil; simpl; rewrite app_nil_r; reflexivity.
  - rewrite (for_url_cons url rest (Crawler.mk cfg urls) n Hn).
    cbn [Crawler.urls Crawler.config new_links]; cbv zeta.
    destruct (href_in url urls) eqn:Hin.
    + assert (Hlt : (Z.of_nat (length urls) >=? n)%Z = false)
        by (rewrite Z.geb_leb; apply Z.leb_gt; lia).
      rewrite Hlt; apply (IH cfg urls n k Hn Hroom).
    + rewrite length_app; cbn [length].
      destruct k as [|k'].
      * assert (Hge : (Z.of_nat (length urls + 1) >=? n)%Z = true)
          by (rewrite Z.geb_leb; apply Z.leb_le; lia).
        rewrite Hge; reflexivity.
      * assert (Hlt : (Z.of_nat (length urls + 1) >=? n)%Z = false)
          by (rewrite Z.geb_leb; apply Z.leb_gt; lia).
        rewrite Hlt.
        rewrite (IH cfg (urls ++ [url]) n k' Hn)
          by (rewrite length_app; simpl; lia).
        cbn [firstn length]; rewrite <- app_assoc; reflexivity.
Qed.

Lemma new_links_app (l1 l2 : list href) :
  forall seen,
    new_links seen (l1 ++ l2)
    = new_links seen l1 ++ new_links (seen ++ new_links seen l1) l2.
Proof.
  induction l1 as [|url l1 IH]; intro seen; simpl.
  - rewrite app_nil_r; reflexivity.
  - destruct (href_in url seen); [apply IH|].
    rewrite IH; simpl; rewrite <- app_assoc; reflexivity.
Qed.

(** The loop over the seed URLs when every page is answered and has its
    listing heading. *)
Lemma for_seed_url_new_links (E : Env) (cfg : Config.t) (seeds : list pyval)
    (pages : list (list href)) :
  Forall2 (fun seed links => page_links E cfg seed = Ok links) seeds pages ->
  forall (urls : list href) (w : World) (n : Z) (k : nat),
    as_int (Config.get_num_articles cfg) = Some n ->
    (Z.of_nat (length urls) + Z.of_nat (S k) = n)%Z ->
    let out := Crawler.for_seed_url E seeds (Crawler.mk cfg urls, w) in
    fst (fst out)
    = Crawler.mk cfg (urls ++ firstn (S k) (new_links urls (concat pages)))
    /\ snd out = Ok tt.
Proof.
  induction 1 as [|seed links seeds pages Hpage _ IH];
    intros urls w n k Hn Hroom out; subst out.
  - simpl; rewrite app_nil_r; split; reflexivity.
  - rewrite for_seed_url_cons; cbv zeta.
    unfold page_links in Hpage; cbn [Crawler.config].
    destruct (requests_get E seed _ _ _) as [response|e]; [|discriminate].
    rewrite Hpage, (for_url_new_links links cfg urls n k Hn Hroom).
    cbn [concat]; rewrite new_links_app, firstn_app.
    destruct (S k <=? length (new_links urls links))%nat eqn:Hfull.
    + apply Nat.leb_le in Hfull.
      replace (S k - length (new_links urls links))%nat with 0%nat by lia.
      cbn [firstn fst snd]; rewrite app_nil_r; split; reflexivity.
    + apply Nat.leb_gt in Hfull.
      rewrite (firstn_all2 (n:=S k) (new_links urls links)) by lia.
      destruct (S k - length (new_links urls links))%nat as [|k'] eqn:Hk;
        [lia|].
      destruct (IH (urls ++ new_links urls links)
                  (mkWorld (trace w ++ [Request seed]) (fs w)) n k' Hn)
        as [Hfrontier Hret]; [rewrite length_app; lia|].
      rewrite Hfrontier, Hret, <- app_assoc; split; reflexivity.
Qed.

(** X4: when every seed URL is answered with a page that has its listing
    heading, the crawl of a validated configuration returns, and the
    frontier it leaves is made of the links of the seed pages, taken in
    the order of the seeds and of each page, every link at its first
    occurrence only, cut at the target count. *)
Theorem X4_frontier_is_first_new_links (E : Env) (cfg : Config.t) (w : World)
    (seeds : list pyval) (pages : list (list href)) (n : Z) :
  Config._validate_config_content cfg = Ok tt ->
  Config.get_seed_urls cfg = PyList seeds ->
  as_int (Config.get_num_articles cfg) = Some n ->
  Forall2 (fun seed links => page_links E cfg seed = Ok links) seeds pages ->
  let out := Crawler.find_articles E (Crawler.__init__ cfg, w) in
  Crawler.urls (fst (fst out))
  = firstn (Z.to_nat n) (new_links [] (concat pages))
  /\ snd out = Ok tt.
Proof.
  intros Hvalid Hseeds Hn Hpages out; subst out.
  destruct (validated_config _ Hvalid) as (_ & n' & Hn' & Hr).
  rewrite Hn in Hn'; inversion Hn'; subst n'; clear Hn'.
  unfold Crawler.__init__.
  rewrite (find_articles_unfold E cfg [] w _ Hseeds).
  destruct (Z.to_nat n) as [|k] eqn:Hk; [lia|].
  destruct (for_seed_url_new_links E cfg seeds pages Hpages [] w n k Hn)
    as [Hfrontier Hret]; [simpl; lia|].
  rewrite Hfrontier, Hret; split; reflexivity.
Qed.

Lemma X4_frontier_is_first_new_links_witness :
  let E := Sample.env PyNone
             (Sample.listing [Sample.link_a; Sample.link_b; Sample.link_a])
             Sample.article_page in
  let out :=
    Crawler.find_articles E (Crawler.__init__ (Sample.config 3), Sample.world)
  in
  Crawler.urls (fst (fst out)) = [Sample.link_a; Sample.link_b]
  /\ snd out = Ok tt.
Proof.
  intros E out.
  apply (X4_frontier_is_first_new_links E (Sample.config 3) Sample.world
           [Sample.seed_1; Sample.seed_2]
           [[Sample.link_a; Sample.link_b; Sample.link_a];
            [Sample.link_a; Sample.link_b; Sample.link_a]] 3%Z).
  - reflexivity.
  - reflexivity.
  - reflexivity.
  - repeat constructor.
Defined.

(** What the loop over the seed URLs does to the world: it records a
    request for each seed URL it comes to, in order, and nothing else;
    the file tree stays. *)
Lemma for_seed_url_requests (E : Env) (seeds : list pyval) :
  forall (self : Crawler.t) (w : World),
    let out := Crawler.for_seed_url E seeds (self, w) in
    fs (snd (fst out)) = fs w
    /\ exists k, (k <= length seeds)%nat
                 /\ trace (snd (fst out))
                    = trace w ++ map Request (firstn k seeds).
Proof.
  induction seeds as [|seed rest IH]; intros self w out; subst out.
  - split; [reflexivity|].
    exists 0%nat; simpl; rewrite app_nil_r; split; [lia | reflexivity].
  - rewrite for_seed_url_cons; cbv zeta.
    assert (Hone : forall (s : Crawler.t) (r : result unit),
               let out := ((s, mkWorld (trace w ++ [Request seed]) (fs w)), r)
               in
               fs (snd (fst out)) = fs w
               /\ exists k, (k <= length (seed :: rest))%nat
                            /\ trace (snd (fst out))
                               = trace w
                                 ++ map Request (firstn k (seed :: rest))).
    { intros s r; split; [reflexivity|].
      exists 1%nat; simpl; split; [lia | reflexivity]. }
    destruct (requests_get E seed _ _ _) as [response|e]; [|apply Hone].
    destruct (Crawler._extract_url _) as [url_list|e]; [|apply Hone].
    destruct (Crawler.for_url url_list self) as [self' [[|]|e]];
      [apply Hone | | apply Hone].
    destruct (IH self' (mkWorld (trace w ++ [Request seed]) (fs w)))
      as (Hfs & k & Hk & Htrace).
    split; [exact Hfs|].
    exists (S k); cbn [length firstn map]; split; [lia|].
    rewrite Htrace; cbn [trace]; rewrite <- app_assoc; reflexivity.
Qed.

(** X5: a crawl requests seed URLs only, each at most once and in the
    order of the configuration, up to the seed at which it returns or
    raises; it never touches the file tree. *)
Theorem X5_crawl_requests_seeds_in_order (E : Env) (cfg : Config.t)
    (urls : list href) (w : World) (seeds : list pyval) :
  Config.get_seed_urls cfg = PyList seeds ->
  let out := Crawler.find_articles E (Crawler.mk cfg urls, w) in
  fs (snd (fst out)) = fs w
  /\ exists k, (k <= length seeds)%nat
               /\ trace (snd (fst out))
                  = trace w ++ map Request (firstn k seeds).
Proof.
  intros Hseeds out; subst out.
  rewrite (find_articles_unfold E cfg urls w _ Hseeds).
  apply for_seed_url_requests.
Qed.

Lemma X5_crawl_requests_seeds_in_order_witness :
  let E := Sample.env PyNone (Sample.listing [Sample.link_a])
             Sample.article_page in
  let out :=
    Crawler.find_articles E (Crawler.mk (Sample.config 3) [], Sample.world) in
  fs (snd (fst out)) = Dir []
  /\ exists k, (k <= 2)%nat
               /\ trace (snd (fst out))
                  = [] ++ map Request
                            (firstn k [Sample.seed_1; Sample.seed_2]).
Proof.
  intros E out.
  apply (X5_crawl_requests_seeds_in_order E (Sample.config 3) []
           Sample.world [Sample.seed_1; Sample.seed_2]).
  reflexivity.
Defined.

(** X6: for a validated configuration no link is twice in the frontier
    that a crawl leaves, whether the crawl returns or raises. *)
Theorem X6_frontier_has_no_repetition (E : Env) (cfg : Config.t)
    (w : World) :
  Config._validate_config_content cfg = Ok tt ->
  NoDup (Crawler.urls
           (fst (fst (Crawler.find_articles E (Crawler.__init__ cfg, w))))).
Proof. apply find_articles_nodup. Qed.

Lemma X6_frontier_has_no_repetition_witness :
  let E := Sample.env PyNone
             (Sample.listing [Sample.link_a; Sample.link_a; Sample.link_b])
             Sample.article_page in
  NoDup (Crawler.urls
           (fst (fst (Crawler.find_articles E
                        (Crawler.__init__ (Sample.config 3), Sample.world))))).
Proof.
  intro E.
  apply (X6_frontier_has_no_repetition E (Sample.config 3) Sample.world).
  reflexivity.
Defined.

Lemma filter_none {A} (f : A -> bool) (l : list A) :
  forallb (fun x => negb (f x)) l = true -> filter f l = [].
Proof.
  induction l as [|x l IH]; simpl; [reflexivity|].
  destruct (f x); simpl; [discriminate | exact IH].
Qed.

(** X7: only the first heading of class [post-title entry-title] in the
    document order of the whole page, however deep it is nested, gives
    links: no node before it is such a heading, and what comes after it,
    further such headings included, adds nothing to the list; each
    anchor of that heading gives one entry, its [href] or [None]. *)
Theorem X7_links_of_first_listing_only (soup h2 : node)
    (before after : list node) :
  descendants soup = before ++ h2 :: after ->
  forallb (fun d => negb (is_listing d)) before = true ->
  is_listing h2 = true ->
  Crawler._extract_url soup
  = Ok (map (fun link => Tag_get link (lit "href"))
            (find_all (lit "a") h2)).
Proof.
  intros Horder Hbefore Hh2.
  unfold Crawler._extract_url, find_class.
  change (fun d => is_tag (lit "h2") d
                   && has_class (lit "post-title entry-title") d)
    with is_listing.
  rewrite Horder, filter_app, (filter_none is_listing before Hbefore).
  cbn [app filter]; rewrite Hh2; reflexivity.
Qed.

Lemma X7_links_of_first_listing_only_witness :
  let heading links :=
    Tag (lit "h2")
        [(lit "class", AttrList [lit "post-title"; lit "entry-title"])]
        (map Sample.anchor links) in
  let page :=
    Tag (lit "[document]") []
      [Tag (lit "html") []
         [Tag (lit "body") []
            [Tag (lit "h1") [] [Sample.anchor Sample.link_c];
             Tag (lit "div") [(lit "class", AttrList [lit "post"])]
               [heading [Sample.link_a; None]];
             Tag (lit "div") [(lit "class", AttrList [lit "post"])]
               [heading [Sample.link_b]]]]] in
  Crawler._extract_url page = Ok [Sample.link_a; None].
Proof.
  intros heading page.
  apply (X7_links_of_first_listing_only page
           (heading [Sample.link_a; None])
           (firstn 6 (descendants page)) (skipn 7 (descendants page)));
    reflexivity.
Defined.

(** ** HTMLParser *)

(** X8: when the page of an article has no title element, [parse] on a
    new parser raises [AttributeError]; the body text has been filled in
    by then and stays in the record, title and author are as they were
    at construction. *)
Theorem X8_parse_without_title_raises (E : Env) (url : href)
    (article_id : Z) (cfg : Config.t) (w : World) (response : Response.t) :
  requests_get E (py_of_href url) (Config.get_headers cfg)
    (Config.get_timeout cfg) (Config.get_verify_certificate cfg)
  = Ok response ->
  find (lit "title") (BeautifulSoup E (Response.text response)) = None ->
  HTMLParser.parse E (HTMLParser.__init__ url article_id cfg, w)
  = ((HTMLParser.mk url article_id cfg
        (Article.mk url article_id [] (PyList [])
           (concat (map node_text
                      (find_all (lit "p")
                         (BeautifulSoup E (Response.text response)))))),
      mkWorld (trace w ++ [Request (py_of_href url)]) (fs w)),
     Raise AttributeError).
Proof.
  intros Hget Hfind.
  rewrite parse_unfold; cbv zeta.
  cbn [HTMLParser.__init__ HTMLParser._full_url HTMLParser.config].
  rewrite Hget, fill_text_spec; cbn [fst].
  rewrite (fill_meta_missing_title _ _ Hfind); reflexivity.
Qed.

Lemma X8_parse_without_title_raises_witness :
  let E := Sample.env PyNone Sample.no_listing
             (Tag (lit "[document]") [] [Sample.paragraph (lit "Hello")]) in
  HTMLParser.parse E
    (HTMLParser.__init__ Sample.link_a 1 (Sample.config 3), Sample.world)
  = ((HTMLParser.mk Sample.link_a 1 (Sample.config 3)
        (Article.mk Sample.link_a 1 [] (PyList []) (lit "Hello")),
      mkWorld [Request (py_of_href Sample.link_a)] (Dir [])),
     Raise AttributeError).
Proof.
  intro E.
  apply (X8_parse_without_title_raises E Sample.link_a 1 (Sample.config 3)
           Sample.world (Response.mk (lit "<article>")));
    reflexivity.
Defined.

(** Title and author after [parse]: those of the page when it is
    answered and has a title element, those of the parser before
    otherwise. *)
Lemma parse_outcome_title_author (E : Env) (self : HTMLParser.t) :
  let self' := fst (parse_outcome E self) in
  (Article.title (HTMLParser.article self'),
   Article.author (HTMLParser.article self'))
  = match requests_get E (py_of_href (HTMLParser._full_url self))
            (Config.get_headers (HTMLParser.config self))
            (Config.get_timeout (HTMLParser.config self))
            (Config.get_verify_certificate (HTMLParser.config self)) with
    | Ok response =>
        let soup := BeautifulSoup E (Response.text response) in
        match find (lit "title") soup with
        | Some title =>
            (strip (hd [] (split [em_dash] (node_text title))),
             PyList (author_items soup))
        | None =>
            (Article.title (HTMLParser.article self),
             Article.author (HTMLParser.article self))
        end
    | Raise _ =>
        (Article.title (HTMLParser.article self),
         Article.author (HTMLParser.article self))
    end.
Proof.
  unfold parse_outcome; rewrite parse_unfold; cbv zeta.
  destruct (requests_get E _ _ _ _) as [response|e]; [|reflexivity].
  rewrite fill_text_spec; cbn [fst].
  destruct (find (lit "title") (BeautifulSoup E (Response.text response)))
    as [title|] eqn:Hfind.
  - rewrite (fill_meta_spec _ title _ Hfind); reflexivity.
  - rewrite (fill_meta_missing_title _ _ Hfind); reflexivity.
Qed.

(** X9: title and author are assigned, not added to: a second [parse] on
    the same parser, the page behind the URL being the same, leaves the
    title and the author of the first one. *)
Theorem X9_parse_again_keeps_title_and_author (E : Env)
    (self : HTMLParser.t) (w : World) :
  let once := HTMLParser.parse E (self, w) in
  let twice := HTMLParser.parse E (fst once) in
  Article.title (HTMLParser.article (fst (fst twice)))
  = Article.title (HTMLParser.article (fst (fst once)))
  /\ Article.author (HTMLParser.article (fst (fst twice)))
     = Article.author (HTMLParser.article (fst (fst once))).
Proof.
  intros once twice; subst once twice.
  rewrite (parse_world E self w); cbn [fst snd].
  rewrite parse_world; cbn [fst snd].
  pose proof (parse_outcome_title_author E self) as H1.
  pose proof (parse_outcome_title_author E (fst (parse_outcome E self)))
    as H2.
  destruct (parse_keeps E self) as (Hu & _ & Hc & _).
  cbv zeta in *; rewrite Hu, Hc in H2.
  destruct (requests_get E _ _ _ _) as [response|e];
    [destruct (find (lit "title") (BeautifulSoup E (Response.text response)))
    |];
    inversion H1; inversion H2; split; congruence.
Qed.

(** X10: when the text of the title element holds no em dash, the title
    of the record is the whole text, with the white space at its ends
    removed. *)
Theorem X10_title_without_separator (soup title : node)
    (self : HTMLParser.t) :
  find (lit "title") soup = Some title ->
  ~ In em_dash (node_text title) ->
  Article.title (HTMLParser.article
    (fst (HTMLParser._fill_article_with_meta_information soup self)))
  = strip (node_text title).
Proof. apply title_without_em_dash. Qed.

Lemma X10_title_without_separator_witness :
  Article.title (HTMLParser.article
    (fst (HTMLParser._fill_article_with_meta_information Sample.signed_page
            (HTMLParser.__init__ Sample.link_a 1 (Sample.config 3)))))
  = lit "Report".
Proof.
  apply (X10_title_without_separator Sample.signed_page
           (Tag (lit "title") [] [NavigableString (lit "Report")])
           (HTMLParser.__init__ Sample.link_a 1 (Sample.config 3))).
  - reflexivity.
  - intros H; repeat (discriminate H || destruct H as [H|H]); exact H.
Defined.

Lemma lstrip_head (s : str) :
  match lstrip s with
  | [] => True
  | c :: _ => isspace c = false
  end.
Proof.
  induction s as [|x s IH]; simpl; [trivial|].
  destruct (isspace x) eqn:Hx; [exact IH | exact Hx].
Qed.

Lemma lstrip_keeps_last (l : str) (c : char) :
  isspace c = false -> exists l2, lstrip (l ++ [c]) = l2 ++ [c].
Proof.
  intro Hc; induction l as [|x l IH]; simpl.
  - rewrite Hc; exists []; reflexivity.
  - destruct (isspace x); [exact IH | exists (x :: l); reflexivity].
Qed.

(** Neither end of a stripped string is white space. *)
Lemma strip_ends (s : str) :
  match strip s with
  | [] => True
  | c :: _ => isspace c = false
  end
  /\ match rev (strip s) with
     | [] => True
     | c :: _ => isspace c = false
     end.
Proof.
  unfold strip, rstrip; split.
  - pose proof (lstrip_head s) as Hhead.
    destruct (lstrip s) as [|c t]; [exact I|].
    cbn [rev].
    destruct (lstrip_keeps_last (rev t) c Hhead) as (l2 & ->).
    rewrite rev_app_distr; exact Hhead.
  - rewrite rev_involutive; apply lstrip_head.
Qed.

(** X11: the title that the parser leaves neither begins nor ends with
    white space. *)
Theorem X11_title_has_no_outer_white_space (soup title : node)
    (self : HTMLParser.t) :
  find (lit "title") soup = Some title ->
  let t := Article.title (HTMLParser.article
             (fst (HTMLParser._fill_article_with_meta_information soup self)))
  in
  match t with [] => True | c :: _ => isspace c = false end
  /\ match rev t with [] => True | c :: _ => isspace c = false end.
Proof.
  intro Hfind; rewrite (fill_meta_spec soup title self Hfind).
  cbn [fst HTMLParser.article with_article Article.title Article.set_author
         Article.set_title].
  apply strip_ends.
Qed.

Lemma X11_title_has_no_outer_white_space_witness :
  let t := Article.title (HTMLParser.article
             (fst (HTMLParser._fill_article_with_meta_information
                     Sample.article_page
                     (HTMLParser.__init__ Sample.link_a 1 (Sample.config 3)))))
  in
  match t with [] => True | c :: _ => isspace c = false end
  /\ match rev t with [] => True | c :: _ => isspace c = false end.
Proof.
  apply (X11_title_has_no_outer_white_space Sample.article_page
           (Tag (lit "title") []
              [NavigableString
                 (lit "Headline Text " ++ [em_dash] ++ lit " Site Name")])
           (HTMLParser.__init__ Sample.link_a 1 (Sample.config 3))).
  reflexivity.
Defined.

(** ** The driver *)

(** X12: the driver's loop returns exactly when, for every URL of the
    frontier with its identifier, [parse] returns and neither store
    operation raises: one failure ends the run. *)
Theorem X12_driver_returns_iff_every_turn_does (E : Env) (cfg : Config.t)
    (urls : list href) :
  forall (first : Z) (w : World),
    snd (for_crawler_url E cfg urls first w) = Ok tt
    <-> forallb (turn_returns E cfg) (numbered_from first urls) = true.
Proof.
  induction urls as [|url rest IH]; intros first w.
  - split; reflexivity.
  - rewrite for_crawler_url_cons, numbered_from_cons; cbv zeta.
    cbn [forallb]; unfold turn_returns at 1; cbn [fst snd].
    destruct (snd (parse_outcome E _)) as [a|e];
      [|simpl; split; discriminate].
    destruct (to_raw_raises E _) as [e|]; [simpl; split; discriminate|].
    destruct (to_meta_raises E _) as [e|]; [simpl; split; discriminate|].
    simpl; apply IH.
Qed.

(** ** The output area *)

(** What stands in the way when the path is not clear: the step that the
    preparation takes raises. *)
Lemma blocked (p : path) :
  forall n,
    p <> [] ->
    clear_along p n = false ->
    (exists_ p n = true
     /\ (rmtree p n = Raise NotADirectoryError \/ rmtree p n = Raise OSError))
    \/ (exists_ p n = false
        /\ (mkdir_parents p n = Raise NotADirectoryError
            \/ mkdir_parents p n = Raise FileExistsError)).
Proof.
  induction p as [|c p IH]; intros n Hp Hblocked; [contradiction|].
  destruct (resolve n) as [[data|entries|t]|] eqn:Hres.
  - right; unfold exists_; rewrite fs_lookup_step, mkdir_step.
    unfold in_dir; rewrite Hres; split; [reflexivity | left; reflexivity].
  - rewrite (clear_along_cons c p n entries Hres) in Hblocked.
    destruct (assoc c entries) as [child|] eqn:Hc; [|discriminate].
    destruct p as [|c' p'].
    + unfold exists_.
      rewrite (fs_lookup_cons c [] n entries Hres), Hc.
      rewrite (rmtree_last c n entries Hres), Hc.
      rewrite (mkdir_last c n entries Hres), Hc.
      destruct child as [data|sub|t]; [| discriminate |].
      * left; split; [reflexivity | left; reflexivity].
      * change (fs_lookup [] (Link t)) with (resolve (Link t)).
        destruct (resolve (Link t)).
        -- left; split; [reflexivity | right; reflexivity].
        -- right; split; [reflexivity | right; reflexivity].
    + unfold exists_ in *.
      rewrite (fs_lookup_cons c _ n entries Hres), Hc.
      rewrite (rmtree_below c c' p' n entries Hres), Hc.
      rewrite (mkdir_below c c' p' n entries Hres), Hc.
      destruct (IH child) as [[Hex [Hrm|Hrm]]|[Hex [Hmk|Hmk]]];
        [discriminate | exact Hblocked | | | | ].
      * left; rewrite Hrm; split; [exact Hex | left; reflexivity].
      * left; rewrite Hrm; split; [exact Hex | right; reflexivity].
      * right; rewrite Hmk; split; [exact Hex | left; reflexivity].
      * right; rewrite Hmk; split; [exact Hex | right; reflexivity].
  - exfalso; exact (resolve_not_link n t Hres).
  - right; unfold exists_; rewrite fs_lookup_step, mkdir_step.
    unfold in_dir; rewrite Hres; split; [reflexivity | right; reflexivity].
Qed.



Section EntriesElsewhere.
Context {A : Type}.
Implicit Types (d : list (str * A)) (k j : str) (v : A).

Lemma assoc_remove_other k j d :
  str_eqb k j = false -> assoc j (remove_key k d) = assoc j d.
Proof.
  intro Hkj; induction d as [|[k' v'] d IH]; simpl; [reflexivity|].
  destruct (str_eqb k k') eqn:Hk; simpl.
  - apply str_eqb_eq in Hk; subst k'.
    destruct (str_eqb j k) eqn:Hjk; [|exact IH].
    apply str_eqb_eq in Hjk; subst j; rewrite str_eqb_refl in Hkj.
    discriminate.
  - rewrite IH; reflexivity.
Qed.

Lemma assoc_set_other k j v d :
  str_eqb k j = false -> assoc j (set_key k v d) = assoc j d.
Proof.
  intro Hkj.
  assert (Hjk : str_eqb j k = false).
  { destruct (str_eqb j k) eqn:H; [|reflexivity].
    apply str_eqb_eq in H; subst j; rewrite str_eqb_refl in Hkj.
    discriminate. }
  induction d as [|[k' v'] d IH]; simpl.
  - rewrite Hjk; reflexivity.
  - destruct (str_eqb k k') eqn:Hk; simpl.
    + apply str_eqb_eq in Hk; subst k'; rewrite Hjk; reflexivity.
    + rewrite IH; reflexivity.
Qed.

Lemma assoc_app_other k j v d :
  str_eqb k j = false -> assoc j (d ++ [(k, v)]) = assoc j d.
Proof.
  intro Hkj.
  assert (Hjk : str_eqb j k = false).
  { destruct (str_eqb j k) eqn:H; [|reflexivity].
    apply str_eqb_eq in H; subst j; rewrite str_eqb_refl in Hkj.
    discriminate. }
  induction d as [|[k' v'] d IH]; simpl.
  - rewrite Hjk; reflexivity.
  - destruct (str_eqb j k'); [reflexivity | exact IH].
Qed.
End EntriesElsewhere.

Lemma diverge_cons (c d : str) (p q : path) :
  diverge (c :: p) (d :: q)
  = if str_eqb c d then diverge p q else true.
Proof. reflexivity. Qed.

(** Removing the tree at a path changes nothing at a path that parts
    ways with it. *)
Lemma rmtree_elsewhere (p : path) :
  forall (q : path) (n n1 : fsnode),
    rmtree p n = Ok n1 ->
    diverge p q = true ->
    fs_lookup q n1 = fs_lookup q n.
Proof.
  induction p as [|c p IH]; intros q n n1 Hrm Hdiv; [discriminate|].
  destruct q as [|d q]; [discriminate|].
  destruct (rmtree_ok_dir c p n n1 Hrm) as (entries & Hres).
  rewrite diverge_cons in Hdiv.
  destruct p as [|c' p'].
  - rewrite (rmtree_last c n entries Hres) in Hrm.
    destruct (assoc c entries) as [[data|sub|t]|]; try discriminate.
    2:{ destruct (resolve (Link t)); discriminate. }
    inversion Hrm; subst n1; clear Hrm.
    destruct (str_eqb c d) eqn:Hcd; [discriminate|].
    rewrite (fs_lookup_cons d q _ _
               (resolve_rebuild n entries (remove_key c entries) Hres)).
    rewrite (fs_lookup_cons d q n entries Hres).
    rewrite (assoc_remove_other _ _ _ Hcd); reflexivity.
  - rewrite (rmtree_below c c' p' n entries Hres) in Hrm.
    destruct (assoc c entries) as [child|] eqn:Hc; [|discriminate].
    destruct (rmtree (c' :: p') child) as [child'|e] eqn:Hrm';
      [|discriminate].
    simpl in Hrm; inversion Hrm; subst n1; clear Hrm.
    rewrite (fs_lookup_cons d q _ _
               (resolve_rebuild n entries (set_key c child' entries) Hres)).
    rewrite (fs_lookup_cons d q n entries Hres).
    destruct (str_eqb c d) eqn:Hcd.
    + apply str_eqb_eq in Hcd; subst d.
      rewrite assoc_set_key, Hc; apply (IH q child child' Hrm' Hdiv).
    + rewrite (assoc_set_other _ _ _ _ Hcd); reflexivity.
Qed.

(** So does making a directory. *)
Lemma mkdir_elsewhere (p : path) :
  forall (q : path) (n n2 : fsnode),
    mkdir_parents p n = Ok n2 ->
    diverge p q = true ->
    fs_lookup q n2 = fs_lookup q n.
Proof.
  induction p as [|c p IH]; intros q n n2 Hmk Hdiv; [discriminate|].
  destruct q as [|d q]; [discriminate|].
  destruct (mkdir_ok_dir c p n n2 Hmk) as (entries & Hres).
  rewrite diverge_cons in Hdiv.
  destruct p as [|c' p'].
  - rewrite (mkdir_last c n entries Hres) in Hmk.
    destruct (assoc c entries) as [child|]; [discriminate|].
    inversion Hmk; subst n2; clear Hmk.
    destruct (str_eqb c d) eqn:Hcd; [discriminate|].
    rewrite (fs_lookup_cons d q _ _
               (resolve_rebuild n entries (entries ++ [(c, Dir [])]) Hres)).
    rewrite (fs_lookup_cons d q n entries Hres).
    rewrite (assoc_app_other _ _ _ _ Hcd); reflexivity.
  - rewrite (mkdir_below c c' p' n entries Hres) in Hmk.
    destruct (assoc c entries) as [child|] eqn:Hc.
    + destruct (mkdir_parents (c' :: p') child) as [child'|e] eqn:Hmk';
        [|discriminate].
      simpl in Hmk; inversion Hmk; subst n2; clear Hmk.
      rewrite (fs_lookup_cons d q _ _
                 (resolve_rebuild n entries (set_key c child' entries) Hres)).
      rewrite (fs_lookup_cons d q n entries Hres).
      destruct (str_eqb c d) eqn:Hcd.
      * apply str_eqb_eq in Hcd; subst d.
        rewrite assoc_set_key, Hc; apply (IH q child child' Hmk' Hdiv).
      * rewrite (assoc_set_other _ _ _ _ Hcd); reflexivity.
    + destruct (mkdir_parents (c' :: p') (Dir [])) as [child'|e] eqn:Hmk';
        [|discriminate].
      simpl in Hmk; inversion Hmk; subst n2; clear Hmk.
      rewrite (fs_lookup_cons d q _ _
                 (resolve_rebuild n entries (entries ++ [(c, child')]) Hres)).
      rewrite (fs_lookup_cons d q n entries Hres).
      destruct (str_eqb c d) eqn:Hcd.
      * apply str_eqb_eq in Hcd; subst d.
        rewrite (assoc_app_new _ _ _ Hc), Hc.
        rewrite (IH q (Dir []) child' Hmk' Hdiv).
        destruct q as [|d' q']; [discriminate | reflexivity].
      * rewrite (assoc_app_other _ _ _ _ Hcd); reflexivity.
Qed.



(** ** main *)

Lemma find_articles_keeps_files (E : Env) (self : Crawler.t) (w : World) :
  fs (snd (fst (Crawler.find_articles E (self, w)))) = fs w.
Proof.
  unfold Crawler.find_articles, bind, on_self, get, lift_result.
  cbn [fst snd].
  destruct (py_iter _) as [items|e]; [|reflexivity].
  apply for_seed_url_requests.
Qed.

Lemma find_articles_stores_nothing (E : Env) (self : Crawler.t) (w : World) :
  filter is_store (trace (snd (fst (Crawler.find_articles E (self, w)))))
  = filter is_store (trace w).
Proof.
  unfold Crawler.find_articles, bind, on_self, get, lift_result.
  cbn [fst snd].
  destruct (py_iter _) as [items|e]; [|reflexivity].
  destruct (for_seed_url_requests E items self w) as (_ & k & _ & ->).
  rewrite filter_app.
  assert (H : filter is_store (map Request (firstn k items)) = []).
  { induction (firstn k items) as [|x l IH]; [reflexivity | exact IH]. }
  rewrite H, app_nil_r; reflexivity.
Qed.

(** X15: [main] prepares the output area and starts storing only after
    the configuration is accepted and the crawl has returned: when the
    configuration is rejected no request is made, and when either step
    raises, [main] raises the same, the file tree is untouched and
    nothing has gone to the sink. *)
Theorem X15_main_stops_before_the_output_area (E : Env) (w : World) :
  (forall e,
     Config.__init__ E (CRAWLER_CONFIG_PATH E) = Raise e ->
     main E w
     = (mkWorld (trace w ++ [Print (lit "start")]) (fs w), Raise e))
  /\ (forall cfg e,
        Config.__init__ E (CRAWLER_CONFIG_PATH E) = Ok cfg ->
        snd (Crawler.find_articles E
               (Crawler.__init__ cfg,
                mkWorld (trace w ++ [Print (lit "start")]) (fs w)))
        = Raise e ->
        snd (main E w) = Raise e
        /\ fs (fst (main E w)) = fs w
        /\ filter is_store (trace (fst (main E w)))
           = filter is_store (trace w)).
Proof.
  split.
  - intros e Hcfg; unfold main, bind, log, lift_result.
    rewrite Hcfg; reflexivity.
  - intros cfg e Hcfg Hcrawl.
    set (w0 := mkWorld (trace w ++ [Print (lit "start")]) (fs w)) in *.
    pose proof (find_articles_keeps_files E (Crawler.__init__ cfg) w0) as Hfs.
    pose proof (find_articles_stores_nothing E (Crawler.__init__ cfg) w0)
      as Hst.
    unfold main, bind, log, lift_result, call.
    rewrite Hcfg; fold w0.
    destruct (Crawler.find_articles E (Crawler.__init__ cfg, w0))
      as [[crawler w1] r].
    cbn [fst snd] in *; subst r; cbn [fst snd].
    split; [reflexivity|].
    split; [exact Hfs|].
    rewrite Hst; subst w0; cbn [trace].
    rewrite filter_app; simpl; rewrite app_nil_r; reflexivity.
Qed.

Lemma X15_main_stops_before_the_output_area_witness :
  let bad := Sample.env
               (Sample.raw (PyList [Sample.seed_1]) (PyInt 0) (PyInt 5)
                  (PyBool true))
               Sample.no_listing Sample.bare_page in
  let good := Sample.env
                (Sample.raw (PyList [Sample.seed_1]) (PyInt 3) (PyInt 5)
                   (PyBool true))
                Sample.no_listing Sample.bare_page in
  main bad Sample.world
  = (mkWorld [Print (lit "start")] (Dir []),
     Raise IncorrectNumberOfArticlesError)
  /\ snd (main good Sample.world) = Raise AttributeError
  /\ fs (fst (main good Sample.world)) = Dir [].
Proof.
  intros bad good; split.
  - destruct (X15_main_stops_before_the_output_area bad Sample.world)
      as [Hreject _].
    apply Hreject; reflexivity.
  - destruct (X15_main_stops_before_the_output_area good Sample.world)
      as [_ Hcrawl].
    destruct (Hcrawl
                (config_of [lit "scraper_config.json"]
                   (ConfigDTO.mk (PyList [Sample.seed_1]) (PyInt 3)
                      (PyDict [(lit "user-agent",
                                PyStr (lit "Mozilla/5.0"))])
                      (PyStr (lit "utf-8")) (PyInt 5) (PyBool true)
                      (PyBool false)))
                AttributeError eq_refl eq_refl) as (Hret & Hfs & _).
    split; [exact Hret | exact Hfs].
Defined.

(** X16: when the request for an article fails, [parse] raises what the
    request raised and the parser is as before: no text, title or author
    is written; only the request is on record. *)
Theorem X16_parse_request_failure (E : Env) (self : HTMLParser.t)
    (w : World) (e : exn) :
  requests_get E (py_of_href (HTMLParser._full_url self))
    (Config.get_headers (HTMLParser.config self))
    (Config.get_timeout (HTMLParser.config self))
    (Config.get_verify_certificate (HTMLParser.config self)) = Raise e ->
  HTMLParser.parse E (self, w)
  = ((self,
      mkWorld (trace w ++ [Request (py_of_href (HTMLParser._full_url self))])
              (fs w)),
     Raise e).
Proof.
  intro Hget; rewrite parse_unfold; cbv zeta; rewrite Hget; reflexivity.
Qed.

Lemma X16_parse_request_failure_witness :
  let E := Sample.env PyNone Sample.no_listing Sample.article_page in
  let self := HTMLParser.__init__ None 1 (Sample.config 3) in
  HTMLParser.parse E (self, Sample.world)
  = ((self, mkWorld [Request PyNone] (Dir [])), Raise (ExternalError 0)).
Proof.
  intros E self.
  apply (X16_parse_request_failure E self Sample.world (ExternalError 0)).
  reflexivity.
Defined.

(** X17: with an accepted configuration whose list of seed URLs is
    empty, [main] makes no request and stores nothing: all it does after
    its start message is to prepare the output area. *)
Theorem X17_main_without_seeds (E : Env) (w : World) (cfg : Config.t) :
  Config.__init__ E (CRAWLER_CONFIG_PATH E) = Ok cfg ->
  Config.get_seed_urls cfg = PyList [] ->
  main E w
  = prepare_environment (ASSETS_PATH E)
      (mkWorld (trace w ++ [Print (lit "start")]) (fs w)).
Proof.
  intros Hcfg Hseeds.
  unfold main, bind, log, lift_result, call.
  rewrite Hcfg; unfold Crawler.__init__.
  rewrite (find_articles_unfold E cfg [] _ [] Hseeds).
  change (Crawler.for_seed_url E []
            (Crawler.mk cfg [],
             mkWorld (trace w ++ [Print (lit "start")]) (fs w)))
    with ((Crawler.mk cfg [],
           mkWorld (trace w ++ [Print (lit "start")]) (fs w)),
          @Ok unit tt).
  cbn [Crawler.urls fst snd].
  destruct (prepare_environment (ASSETS_PATH E) _) as [w2 [[]|e]];
    reflexivity.
Qed.

Lemma X17_main_without_seeds_witness :
  let E := Sample.env
             (Sample.raw (PyList []) (PyInt 3) (PyInt 5) (PyBool true))
             Sample.no_listing Sample.bare_page in
  main E Sample.world
  = (mkWorld [Print (lit "start")]
       (Dir [(lit "tmp", Dir [(lit "articles", Dir [])])]), Ok tt).
Proof.
  intro E.
  rewrite (X17_main_without_seeds E Sample.world
             (config_of [lit "scraper_config.json"]
                (ConfigDTO.mk (PyList []) (PyInt 3)
                   (PyDict [(lit "user-agent", PyStr (lit "Mozilla/5.0"))])
                   (PyStr (lit "utf-8")) (PyInt 5) (PyBool true)
                   (PyBool false)))
             eq_refl eq_refl).
  reflexivity.
Defined.
